(** * Email triage pipeline of [src/code/src/my_script.py]

    A shallow embedding of the gen-AI email classification and routing script
    and the proofs of its specification.

    Conventions of the embedding.
    - A Python [str] is a list of Unicode code points ([N]); a literal is
      written [py "..."] (ASCII literals only).  A Python [bytes] is a list
      of bytes.
    - A [Dict[str, _]] is a [gmap] keyed by such strings.
    - An exception is a value of [exn]; a function that may raise returns
      [exn + A].
    - [print] appends one [event] per call to the output trace, or raises
      when the standard output does not take the line; the external
      text-completion service is threaded through as a [World]. *)

From Stdlib Require Import NArith ZArith QArith String Ascii.
From stdpp Require Import gmap list.

Set Default Proof Using "Type".

(** ** Python strings *)

Abbreviation str := (list N).
Abbreviation bytes := (list Byte.byte).

Definition py (s : string) : str :=
  map N_of_ascii (list_ascii_of_string s).

Module Chr.
Definition LF : N := 10.
Definition SPACE : N := 32.
Definition COLON : N := 58.
Definition LT : N := 60.
Definition GT : N := 62.
End Chr.

(** [str.isspace] on one code point: the whitespace table of CPython
    ([_PyUnicode_IsWhitespace]). *)
Definition isspace (c : N) : bool :=
  ((9 <=? c) && (c <=? 13)
   || (28 <=? c) && (c <=? 32)
   || (c =? 133) || (c =? 160) || (c =? 5760)
   || (8192 <=? c) && (c <=? 8202)
   || (c =? 8232) || (c =? 8233) || (c =? 8239) || (c =? 8287)
   || (c =? 12288))%N.

(** [str.splitlines] boundaries ([_PyUnicode_IsLinebreak]). *)
Definition islinebreak (c : N) : bool :=
  ((10 <=? c) && (c <=? 13)
   || (28 <=? c) && (c <=? 30)
   || (c =? 133) || (c =? 8232) || (c =? 8233))%N.

(** [sep.join(ws)] *)
Fixpoint join (sep : str) (ws : list str) : str :=
  match ws with
  | [] => []
  | [w] => w
  | w :: ws' => w ++ sep ++ join sep ws'
  end.

(** Puts [c] in front of the first word of [ws]. *)
Definition cons_word (c : N) (ws : list str) : list str :=
  match ws with
  | [] => [[c]]
  | w :: ws' => (c :: w) :: ws'
  end.

(** [s.split()] without arguments: the maximal runs of non-whitespace
    characters, in order. *)
Fixpoint split (s : str) : list str :=
  match s with
  | [] => []
  | c :: s' =>
      if isspace c then split s'
      else match s' with
           | [] => [[c]]
           | c' :: _ => if isspace c' then [c] :: split s'
                        else cons_word c (split s')
           end
  end.

(** [s.lstrip()], [s.rstrip()] and [s.strip()] without arguments. *)
Fixpoint lstrip (s : str) : str :=
  match s with
  | [] => []
  | c :: s' => if isspace c then lstrip s' else s
  end.

Definition rstrip (s : str) : str := reverse (lstrip (reverse s)).

Definition strip (s : str) : str := rstrip (lstrip s).

(** ** The regular expression [<[^>]+>]

    [has_gt s] holds when a [>] occurs in [s]. *)
Definition has_gt (s : str) : bool := existsb (N.eqb Chr.GT) s.

(** [opens s] holds when a match of [[^>]+>] starts at the head of [s]: one
    character other than [>], then a [>] somewhere later. *)
Definition opens (s : str) : bool :=
  match s with
  | [] => false
  | c :: s' => negb (c =? Chr.GT)%N && has_gt s'
  end.

(** [starts_tag s] holds when a match of [<[^>]+>] starts at the head of
    [s]. *)
Definition starts_tag (s : str) : bool :=
  match s with
  | [] => false
  | c :: s' => (c =? Chr.LT)%N && opens s'
  end.

(** [re.sub(r"<[^>]+>", "", s)], as one left-to-right scan.  [inside] says
    that the scan is in the middle of a match, which then ends at the next
    [>]; outside a match, a character at which a match starts opens one and
    any other character is kept. *)
Fixpoint scan (inside : bool) (s : str) : str :=
  match s with
  | [] => []
  | c :: s' =>
      if inside then
        if (c =? Chr.GT)%N then scan false s' else scan true s'
      else
        if starts_tag (c :: s') then scan true s' else c :: scan false s'
  end.

Definition re_sub_tags (s : str) : str := scan false s.

(** ** [clean_email_content] (lines 54-69) *)
Definition clean_email_content (email_content : str) : str :=
  let cleaned_text := re_sub_tags email_content in
  let cleaned_text := join (py " ") (split cleaned_text) in
  cleaned_text.

(** [s.splitlines()]: a line ends at each line boundary, [\r\n] counting as
    one; no empty line is produced after a final boundary. *)
Fixpoint splitlines (s : str) : list str :=
  match s with
  | [] => []
  | c :: s' =>
      if islinebreak c then
        [] :: splitlines
                match s' with
                | c' :: s'' => if ((c =? 13) && (c' =? 10))%N then s'' else s'
                | [] => s'
                end
      else cons_word c (splitlines s')
  end.

(** [sep in s] for a one-character [sep]. *)
Definition contains (sep : N) (s : str) : bool := existsb (N.eqb sep) s.

(** [s.split(sep, 1)] for a one-character [sep]. *)
Fixpoint split1 (sep : N) (s : str) : list str :=
  match s with
  | [] => [[]]
  | c :: s' => if (c =? sep)%N then [[]; s'] else cons_word c (split1 sep s')
  end.

(** ** Values, exceptions and printed lines *)

(** The exceptions (all subclasses of [Exception]) that the script can meet,
    with the text that [str(e)] formats as it is.  The text of a [KeyError]
    is the [repr] of its key, and that of a [UnicodeEncodeError] holds the
    character in escaped form: [descr] is its reason. *)
Inductive exn :=
| KeyError (key : str)
| ValueError (descr : str)
| UnboundLocalError (name : str)
| AttributeError (attr : str)
| IndexError (descr : str)
| UnicodeEncodeError (descr : str)
| ExternalError (descr : str).

(** A value of the metadata dictionary: a string, or the attachment list. *)
Inductive mval :=
| MStr (s : str)
| MList (l : list str).

(** A value of the actions dictionary: a parameter record, or a flag. *)
Inductive aval :=
| AParams (r : gmap str mval)
| ABool (b : bool).

Abbreviation metadata := (gmap str mval).
Abbreviation actions := (gmap str aval).
Abbreviation entities := (gmap str str).

(** One constructor per [print] call of the script, with the values that the
    printed line is formatted from. *)
Inductive event :=
| ErrorClassifying (e : exn)
| ErrorExtracting (e : exn)
| ErrorRecognizing (e : exn)
| ErrorAnalyzing (e : exn)
| ErrorSummarizing (e : exn)
| RoutedTo (destination : str) (acts : actions)
           (category intent sentiment : str)
| EmailMetadata (m : metadata)
| CategoryLine (category : str)
| EntitiesLine (ents : entities)
| IntentLine (intent : str)
| SentimentLine (sentiment : str)
| SummaryLine (summary : str)
| RoutingDestination (destination : str)
| ActionsLine (acts : actions)
| SimilarityScore (score : Q)
| ErrorProcessing (e : exn)
| ProcessingEmail (filename : str)
| ErrorReadingOrProcessing (filename : str) (e : exn).

(** A parsed message ([email.message.EmailMessage]), by what the script
    observes of it: [get(name)] stringified, [get_content_type()],
    [get_filename()], and the payload, which is either the transfer-decoded
    bytes of a leaf or the list of sub-parts of a multipart message.  Under
    [policy.default] a header is parsed when it is read, so that [get] and
    [get_filename] raise on some malformed headers of a message that the
    parser accepted; the content type was already read by the parser. *)
#[local] Unset Elimination Schemes.
Inductive message :=
| Message (get : str → exn + option str) (content_type : str)
          (filename : exn + option str) (payload : bytes + list message).
#[local] Set Elimination Schemes.

Definition msg_get (m : message) (name : str) : exn + option str :=
  match m with Message g _ _ _ => g name end.

Definition get_content_type (m : message) : str :=
  match m with Message _ t _ _ => t end.

Definition get_filename (m : message) : exn + option str :=
  match m with Message _ _ f _ => f end.

Definition is_multipart (m : message) : bool :=
  match m with Message _ _ _ (inr _) => true | _ => false end.

(** [get_payload(decode=True)]: [None] on a multipart message. *)
Definition get_payload_decode (m : message) : option bytes :=
  match m with Message _ _ _ (inl b) => Some b | _ => None end.

(** [walk()]: the message itself, then its sub-parts, depth first. *)
Fixpoint walk (m : message) : list message :=
  m :: match m with
       | Message _ _ _ (inr ps) => flat_map walk ps
       | _ => []
       end.

(** [str(x)] of an optional header. *)
Definition str_of (x : option str) : str := default (py "None") x.

(** The five results of the analysis of one message (the values of
    [category], [entities], [intent], [sentiment] and [summary] in
    [process_email]). *)
Record analysis := Analysis {
  a_category : str;
  a_entities : entities;
  a_intent : str;
  a_sentiment : str;
  a_summary : str
}.

(** ** Vocabularies (lines 23-51) *)
Definition EMAIL_CATEGORIES : list str :=
  [py "Account Inquiry"; py "Transaction Dispute"; py "Loan Application";
   py "Mortgage Inquiry"; py "Fraud Report"; py "Service Request";
   py "Complaint"; py "Feedback"; py "General Inquiry"].

Definition EMAIL_ENTITIES : list str :=
  [py "Account Number"; py "Transaction ID"; py "Customer Name";
   py "Phone Number"; py "Email Address"; py "Date"; py "Amount";
   py "Product Type"].

Definition EMAIL_INTENTS : list str :=
  [py "Request Information"; py "Report a Problem"; py "Apply for a Service";
   py "Provide Feedback"; py "Seek Help"].

Definition EMAIL_SENTIMENTS : list str :=
  [py "Positive"; py "Negative"; py "Neutral"].

(** ** The routing table of the specification

    The table of the specification, written from its rows: the destination
    and the base actions of each category, with the sender address of the
    metadata and the sentiment as the only other inputs. *)
Module Table.
Definition ticket (system priority : string) : aval :=
  AParams {[ py "system" := MStr (py system);
             py "priority" := MStr (py priority) ]}.

Definition acknowledgment (type : string) (sender : mval) : aval :=
  AParams {[ py "type" := MStr (py type); py "to" := sender ]}.

Definition rows (sender : mval) (sentiment : str)
  : list (str * (str * actions)) :=
  [ (py "Fraud Report",
     (py "Fraud Department",
      {[ py "create_ticket" := ticket "CRM" "High";
         py "send_acknowledgment" :=
           acknowledgment "FraudReportReceived" sender ]}));
    (py "Loan Application",
     (py "Loan Department",
      {[ py "create_ticket" := ticket "LoanOriginationSystem" "Medium" ]}));
    (py "Account Inquiry",
     (py "Customer Service Department",
      {[ py "send_acknowledgment" :=
           acknowledgment "AccountInquiryReceived" sender ]}));
    (py "Transaction Dispute",
     (py "Dispute Resolution Department",
      {[ py "create_ticket" := ticket "DisputeTrackingSystem" "High" ]}));
    (py "Mortgage Inquiry",
     (py "Mortgage Department",
      {[ py "create_ticket" :=
           ticket "MortgageOriginationSystem" "Medium" ]}));
    (py "Service Request",
     (py "Customer Service Department",
      {[ py "create_ticket" := ticket "CRM" "Medium" ]}));
    (py "Complaint",
     (py "Customer Relations Department",
      if decide (sentiment = py "Negative")
      then {[ py "create_ticket" := ticket "CRM" "High";
              py "escalate" := ABool true ]}
      else {[ py "create_ticket" := ticket "CRM" "High" ]}));
    (py "Feedback", (py "Product Development Department", ∅));
    (py "General Inquiry", (py "Customer Service Department", ∅)) ].

(** The row whose key equals the category, or the default bucket. *)
Fixpoint find_row (category : str) (table : list (str * (str * actions)))
  : str * actions :=
  match table with
  | [] => (py "General Inquiry Department", ∅)
  | (key, row) :: table' =>
      if decide (key = category) then row else find_row category table'
  end.

Definition decision (category : str) (sender : mval) (sentiment : str)
  : str * actions :=
  find_row category (rows sender sentiment).
End Table.

(** ** The external collaborators

    What the script calls and does not define, over the state [World] of
    the text-completion service.  [stdout_error line] is the exception that
    [print] raises for that line ([UnicodeEncodeError] when the encoding of
    the standard output cannot take it), or [None] when the line is
    written. *)
Record services (World : Type) := Services {
  (** [client.chat_model.predict(prompt).text]: the response text, or the
      exception that the call raises (the script itself never binds
      [client]; the name is resolved by the environment at each call). *)
  predict : str → World → (exn + str) * World;
  (** [BytesParser(policy=policy.default).parsebytes] of the [email]
      library. *)
  parsebytes : bytes → exn + message;
  (** [b.decode("utf-8", errors="ignore")], which never raises. *)
  decode_utf8_ignore : bytes → str;
  (** Opening and reading the file of that name in the storage directory. *)
  read_file : str → exn + bytes;
  (** [print(line)] on the standard output: the exception that the write
      raises for that line, if any; nothing of the line is written then. *)
  stdout_error : event → option exn
}.
Arguments Services {World} _ _ _ _ _.
Arguments predict {World} _ _ _.
Arguments parsebytes {World} _ _.
Arguments decode_utf8_ignore {World} _ _.
Arguments read_file {World} _ _.
Arguments stdout_error {World} _ _.

(** ** The pipeline *)
Section Pipeline.
Context {World : Type} (sv : services World).

(** *** Computations: an exception or a value, the printed lines, and the
    state of the service afterwards. *)
Record outcome (A : Type) := Outcome {
  result : exn + A;
  printed : list event;
  world : World
}.
Global Arguments Outcome {A} _ _ _.
Global Arguments result {A} _.
Global Arguments printed {A} _.
Global Arguments world {A} _.

Definition M (A : Type) : Type := World → outcome A.

Definition ret {A} (a : A) : M A := λ w, Outcome (inr a) [] w.

Definition raise {A} (e : exn) : M A := λ w, Outcome (inl e) [] w.

Definition bind {A B} (m : M A) (k : A → M B) : M B := λ w,
  match m w with
  | Outcome (inl e) out w' => Outcome (inl e) out w'
  | Outcome (inr a) out w' =>
      let r := k a w' in Outcome (result r) (out ++ printed r) (world r)
  end.

(** [try: m except Exception as e: handler e] *)
Definition try_except {A} (m : M A) (handler : exn → M A) : M A := λ w,
  match m w with
  | Outcome (inl e) out w' =>
      let r := handler e w' in Outcome (result r) (out ++ printed r) (world r)
  | r => r
  end.

(** [print(line)] *)
Definition print (ev : event) : M unit := λ w,
  match stdout_error sv ev with
  | Some e => Outcome (inl e) [] w
  | None => Outcome (inr tt) [ev] w
  end.

Definition call_predict (prompt : str) : M str := λ w,
  let (r, w') := predict sv prompt w in Outcome r [] w'.

(** [d[key]] *)
Definition getitem {V} (d : gmap str V) (key : str) : M V :=
  match d !! key with
  | Some v => ret v
  | None => raise (KeyError key)
  end.

Notation "x ← m ; k" := (bind m (λ x, k))
  (at level 20, m at level 100, k at level 200, only parsing).
Notation "m ;; k" := (bind m (λ _, k))
  (at level 100, k at level 200, right associativity, only parsing).

(** *** [extract_email_metadata] (lines 73-104) *)

(** [email_message.get(name)] *)
Definition get_header (email_message : message) (name : str)
  : M (option str) :=
  match msg_get email_message name with
  | inl e => raise e
  | inr value => ret value
  end.

(** The loop of lines 95-97 over the parts of the walk. *)
Fixpoint attachments_loop (attachments : list str) (parts : list message)
  : M (list str) :=
  match parts with
  | [] => ret attachments
  | part :: parts' =>
      match get_filename part with
      | inl e => raise e
      | inr (Some (c :: f)) =>
          attachments_loop (attachments ++ [c :: f]) parts'
      | inr _ => attachments_loop attachments parts'
      end
  end.

(** The list that lines 93-97 build when every [get_filename()] returns. *)
Definition attachments_of (email_message : message) : list str :=
  if is_multipart email_message then
    flat_map (λ part, match get_filename part with
                      | inr (Some (c :: f)) => [c :: f]
                      | _ => []
                      end) (walk email_message)
  else [].

Definition extract_email_metadata (email_bytes : bytes) : M metadata :=
  email_message ← match parsebytes sv email_bytes with
                  | inl e => raise e
                  | inr email_message => ret email_message
                  end;
  sender_email ← get_header email_message (py "From");
  subject ← get_header email_message (py "Subject");
  timestamp ← get_header email_message (py "Date");
  attachments ← (if is_multipart email_message
                 then attachments_loop [] (walk email_message)
                 else ret []);
  ret (<[py "attachments" := MList attachments]>
       (<[py "timestamp" := MStr (str_of timestamp)]>
        (<[py "subject" := MStr (str_of subject)]>
         (<[py "sender_email" := MStr (str_of sender_email)]> ∅)))).

(** *** [classify_email] (lines 108-128) *)
Definition classify_prompt (email_content : str) : str :=
  [Chr.LF]
  ++ py "    Classify the following email into one of these categories: "
  ++ join (py ", ") EMAIL_CATEGORIES ++ py "." ++ [Chr.LF]
  ++ py "    Provide *only* the category name." ++ [Chr.LF]
  ++ py "    Email: " ++ email_content ++ [Chr.LF]
  ++ py "    ".

Definition classify_email (email_content : str) : M str :=
  let prompt := classify_prompt email_content in
  try_except
    (response ← call_predict prompt;
     ret (strip response))
    (λ e, print (ErrorClassifying e);;
          ret (py "General Inquiry")).

(** *** [extract_entities] (lines 132-158) *)
Definition entities_prompt (email_content : str) : str :=
  [Chr.LF]
  ++ py "    Extract the following information from the email. If a piece of information is not present, output 'N/A'."
  ++ [Chr.LF] ++ py "    "
  ++ join [Chr.LF] (map (λ entity, entity ++ py ":") EMAIL_ENTITIES)
  ++ [Chr.LF]
  ++ py "    Email: " ++ email_content ++ [Chr.LF]
  ++ py "    ".

(** The body of the [for line in lines] loop. *)
Definition entities_step (extracted_entities : entities) (line : str)
  : M entities :=
  if contains Chr.COLON line then
    match split1 Chr.COLON line with
    | [key; value] =>
        ret (<[strip key := strip value]> extracted_entities)
    | _ => raise (ValueError (py "unpack"))
    end
  else ret extracted_entities.

Fixpoint entities_loop (extracted_entities : entities) (lines : list str)
  : M entities :=
  match lines with
  | [] => ret extracted_entities
  | line :: lines' =>
      extracted_entities ← entities_step extracted_entities line;
      entities_loop extracted_entities lines'
  end.

Definition entities_default : entities :=
  foldl (λ d entity, <[entity := py "N/A"]> d) ∅ EMAIL_ENTITIES.

Definition extract_entities (email_content : str) : M entities :=
  let prompt := entities_prompt email_content in
  try_except
    (response ← call_predict prompt;
     let lines := splitlines response in
     entities_loop ∅ lines)
    (λ e, print (ErrorExtracting e);;
          ret entities_default).

(** *** [recognize_intent] (lines 162-181) *)
Definition intent_prompt (email_content : str) : str :=
  [Chr.LF]
  ++ py "    What is the primary intent of this email? Choose one of the following: "
  ++ join (py ", ") EMAIL_INTENTS ++ py "." ++ [Chr.LF]
  ++ py "    Email: " ++ email_content ++ [Chr.LF]
  ++ py "    ".

Definition recognize_intent (email_content : str) : M str :=
  let prompt := intent_prompt email_content in
  try_except
    (response ← call_predict prompt;
     ret (strip response))
    (λ e, print (ErrorRecognizing e);;
          ret (py "General Inquiry")).

(** *** [analyze_sentiment] (lines 185-204) *)
Definition sentiment_prompt (email_content : str) : str :=
  [Chr.LF]
  ++ py "    What is the sentiment of this email? Choose one of the following: "
  ++ join (py ", ") EMAIL_SENTIMENTS ++ py "." ++ [Chr.LF]
  ++ py "    Email: " ++ email_content ++ [Chr.LF]
  ++ py "    ".

Definition analyze_sentiment (email_content : str) : M str :=
  let prompt := sentiment_prompt email_content in
  try_except
    (response ← call_predict prompt;
     ret (strip response))
    (λ e, print (ErrorAnalyzing e);;
          ret (py "Neutral")).

(** *** [summarize_email] (lines 208-227) *)
Definition summary_prompt (email_content : str) : str :=
  [Chr.LF]
  ++ py "    Summarize the following email in three sentences or less:"
  ++ [Chr.LF]
  ++ py "    " ++ email_content ++ [Chr.LF]
  ++ py "    ".

Definition summarize_email (email_content : str) : M str :=
  let prompt := summary_prompt email_content in
  try_except
    (response ← call_predict prompt;
     ret (strip response))
    (λ e, print (ErrorSummarizing e);;
          ret (py "Summary not available.")).

(** *** [route_email] (lines 231-297) *)
Definition route_email (category : str) (ents : entities)
    (intent sentiment summary : str) (email_metadata : metadata)
  : M (str * actions) :=
  let destination := py "General Inquiry Department" in
  let acts : actions := ∅ in
  routed ←
    (if decide (category = py "Fraud Report") then
       let destination := py "Fraud Department" in
       let acts :=
         <[py "create_ticket" :=
             AParams (<[py "priority" := MStr (py "High")]>
                      (<[py "system" := MStr (py "CRM")]> ∅))]> acts in
       sender ← getitem email_metadata (py "sender_email");
       let acts :=
         <[py "send_acknowledgment" :=
             AParams (<[py "to" := sender]>
                      (<[py "type" := MStr (py "FraudReportReceived")]> ∅))]>
           acts in
       ret (destination, acts)
     else if decide (category = py "Loan Application") then
       let destination := py "Loan Department" in
       let acts :=
         <[py "create_ticket" :=
             AParams (<[py "priority" := MStr (py "Medium")]>
                      (<[py "system" := MStr (py "LoanOriginationSystem")]>
                         ∅))]> acts in
       ret (destination, acts)
     else if decide (category = py "Account Inquiry") then
       let destination := py "Customer Service Department" in
       sender ← getitem email_metadata (py "sender_email");
       let acts :=
         <[py "send_acknowledgment" :=
             AParams (<[py "to" := sender]>
                      (<[py "type" := MStr (py "AccountInquiryReceived")]>
                         ∅))]> acts in
       ret (destination, acts)
     else if decide (category = py "Transaction Dispute") then
       let destination := py "Dispute Resolution Department" in
       let acts :=
         <[py "create_ticket" :=
             AParams (<[py "priority" := MStr (py "High")]>
                      (<[py "system" := MStr (py "DisputeTrackingSystem")]>
                         ∅))]> acts in
       ret (destination, acts)
     else if decide (category = py "Mortgage Inquiry") then
       let destination := py "Mortgage Department" in
       let acts :=
         <[py "create_ticket" :=
             AParams (<[py "priority" := MStr (py "Medium")]>
                      (<[py "system" :=
                           MStr (py "MortgageOriginationSystem")]> ∅))]>
           acts in
       ret (destination, acts)
     else if decide (category = py "Service Request") then
       let destination := py "Customer Service Department" in
       let acts :=
         <[py "create_ticket" :=
             AParams (<[py "priority" := MStr (py "Medium")]>
                      (<[py "system" := MStr (py "CRM")]> ∅))]> acts in
       ret (destination, acts)
     else if decide (category = py "Complaint") then
       let destination := py "Customer Relations Department" in
       let acts :=
         <[py "create_ticket" :=
             AParams (<[py "priority" := MStr (py "High")]>
                      (<[py "system" := MStr (py "CRM")]> ∅))]> acts in
       let acts :=
         if decide (sentiment = py "Negative")
         then <[py "escalate" := ABool true]> acts
         else acts in
       ret (destination, acts)
     else if decide (category = py "Feedback") then
       let destination := py "Product Development Department" in
       ret (destination, acts)
     else if decide (category = py "General Inquiry") then
       let destination := py "Customer Service Department" in
       ret (destination, acts)
     else ret (destination, acts));
  print (RoutedTo routed.1 routed.2 category intent sentiment);;
  ret (routed.1, routed.2).

(** *** [calculate_similarity_score] (lines 300-323)

    The loop runs over the keys of [expected_entities] and keeps the two
    counters; the quotient of the two integers is the exact rational, of
    which Python returns the nearest float. *)
Definition similarity_step (extracted_entities : entities)
    (key expected : str) (counts : nat * nat) : nat * nat :=
  let '(match_count, total_count) := counts in
  match extracted_entities !! key with
  | Some value =>
      let total_count := S total_count in
      if decide (value = expected)
      then (S match_count, total_count)
      else (match_count, total_count)
  | None => (match_count, total_count)
  end.

Definition similarity_counts (extracted_entities expected_entities : entities)
  : nat * nat :=
  map_fold (similarity_step extracted_entities) (0, 0) expected_entities.

Definition calculate_similarity_score
    (extracted_entities expected_entities : entities) : Q :=
  let '(match_count, total_count) :=
    similarity_counts extracted_entities expected_entities in
  if decide (total_count = 0) then 0%Q
  else (Z.of_nat match_count # Pos.of_nat total_count)%Q.

(** *** [process_email] (lines 327-393) *)

(** Step 2, the selection of the body: [None] when no assignment to
    [email_content] was executed. *)
Definition select_body (email_message : message) : option (option bytes) :=
  if is_multipart email_message then
    match find (λ part, bool_decide (get_content_type part = py "text/plain"))
               (walk email_message) with
    | Some part => Some (get_payload_decode part)
    | None => None
    end
  else Some (get_payload_decode email_message).

(** [email_content.decode("utf-8", errors="ignore")] *)
Definition decode_body (email_content : option (option bytes)) : M str :=
  match email_content with
  | None => raise (UnboundLocalError (py "email_content"))
  | Some None => raise (AttributeError (py "decode"))
  | Some (Some b) => ret (decode_utf8_ignore sv b)
  end.

Definition expected_entities : entities :=
  {[ py "Account Number" := py "1234567890";
     py "Transaction ID" := py "N/A";
     py "Customer Name" := py "John Smith";
     py "Phone Number" := py "555-123-4567";
     py "Email Address" := py "customer@example.com";
     py "Date" := py "2024-07-24T10:00:00";
     py "Amount" := py "1000";
     py "Product Type" := py "N/A" ]}.

(** Step 4, the five requests to the service, in the order of the script. *)
Definition analyze_email (cleaned_content : str) : M analysis :=
  category ← classify_email cleaned_content;
  ents ← extract_entities cleaned_content;
  intent ← recognize_intent cleaned_content;
  sentiment ← analyze_sentiment cleaned_content;
  summary ← summarize_email cleaned_content;
  ret (Analysis category ents intent sentiment summary).

(** Steps 3 to 6, on the decoded body. *)
Definition analyze_and_route (email_metadata : metadata) (email_content : str)
  : M unit :=
  let cleaned_content := clean_email_content email_content in
  a ← analyze_email cleaned_content;
  print (CategoryLine (a_category a));;
  print (EntitiesLine (a_entities a));;
  print (IntentLine (a_intent a));;
  print (SentimentLine (a_sentiment a));;
  print (SummaryLine (a_summary a));;
  routed ← route_email (a_category a) (a_entities a) (a_intent a)
             (a_sentiment a) (a_summary a) email_metadata;
  print (RoutingDestination routed.1);;
  print (ActionsLine routed.2);;
  let similarity_score :=
    calculate_similarity_score (a_entities a) expected_entities in
  print (SimilarityScore similarity_score).

(** The [try] block of [process_email]. *)
Definition process_email_try (email_bytes : bytes) : M unit :=
  email_metadata ← extract_email_metadata email_bytes;
  print (EmailMetadata email_metadata);;
  email_message ← match parsebytes sv email_bytes with
                  | inl e => raise e
                  | inr email_message => ret email_message
                  end;
  email_content ← decode_body (select_body email_message);
  analyze_and_route email_metadata email_content.

Definition process_email (email_bytes : bytes) : M unit :=
  try_except (process_email_try email_bytes)
             (λ e, print (ErrorProcessing e)).

(** *** The loop of [main] over the storage directory (lines 446-455) *)
Definition endswith (s suffix : str) : bool :=
  bool_decide (suffix `suffix_of` s).

Definition process_file (filename : str) : M unit :=
  if endswith filename (py ".eml") then
    try_except
      (email_bytes ← match read_file sv filename with
                     | inl e => raise e
                     | inr email_bytes => ret email_bytes
                     end;
       print (ProcessingEmail filename);;
       process_email email_bytes)
      (λ e, print (ErrorReadingOrProcessing filename e))
  else ret tt.

Fixpoint main_loop (listing : list str) : M unit :=
  match listing with
  | [] => ret tt
  | filename :: listing' => process_file filename;; main_loop listing'
  end.
End Pipeline.

(** * Specification predicates *)

(** ** Predicates of the specification of the text functions *)

(** The language of the regular expression [<[^>]+>]. *)
Definition is_tag (t : str) : Prop :=
  ∃ body, body ≠ [] ∧ (Chr.GT ∉ body) ∧ t = Chr.LT :: body ++ [Chr.GT].

(** [strips_to s out]: [out] is [s] without its tags, a tag being removed
    wherever one starts, from left to right. *)
Inductive strips_to : str → str → Prop :=
| strips_nil : strips_to [] []
| strips_tag t rest out :
    is_tag t → strips_to rest out → strips_to (t ++ rest) out
| strips_keep c s out :
    (∀ t rest, is_tag t → c :: s ≠ t ++ rest) →
    strips_to s out → strips_to (c :: s) (c :: out).

(** No match of the regular expression starts anywhere in [s]. *)
Fixpoint tag_free (s : str) : bool :=
  match s with
  | [] => true
  | _ :: s' => negb (starts_tag s) && tag_free s'
  end.

(** A word: a non-empty run of characters that are not whitespace. *)
Definition word (w : str) : Prop :=
  w ≠ [] ∧ Forall (λ c, isspace c = false) w.

(** Whitespace normalisation: [" ".join(s.split())]. *)
Definition normalize (s : str) : str := join (py " ") (split s).

(** ** Predicates of the specification of the similarity score

    An expected entry whose key is among the extracted ones, and one whose
    value is moreover the extracted value, character for character. *)
Definition present (extracted : entities) (kv : str * str) : Prop :=
  is_Some (extracted !! kv.1).

Definition agrees (extracted : entities) (kv : str * str) : Prop :=
  extracted !! kv.1 = Some kv.2.

#[global] Instance present_dec extracted kv : Decision (present extracted kv).
Proof. unfold present. apply _. Defined.

#[global] Instance agrees_dec extracted kv : Decision (agrees extracted kv).
Proof. unfold agrees. apply _. Defined.

(** ** Predicates of the specification of the analysis *)

(** The line-by-line effect of the loop of [extract_entities], without the
    unpacking error that cannot happen. *)
Definition entities_put (d : entities) (line : str) : entities :=
  if contains Chr.COLON line then
    match split1 Chr.COLON line with
    | [key; value] => <[strip key := strip value]> d
    | _ => d
    end
  else d.

(** A text that neither starts nor ends with whitespace. *)
Definition trimmed (s : str) : Prop :=
  (∀ c r, s = c :: r → isspace c = false)
  ∧ (∀ r c, s = r ++ [c] → isspace c = false).

(** [trim_of s t]: [t] is [s] without the whitespace at its two ends. *)
Definition trim_of (s t : str) : Prop :=
  ∃ before after,
    s = before ++ t ++ after
    ∧ Forall (λ c, isspace c = true) before
    ∧ Forall (λ c, isspace c = true) after
    ∧ trimmed t.

(** [binds line k v]: the line has a colon, [k] is the text before its first
    colon and [v] the text after it, each without the whitespace at its two
    ends. *)
Definition binds (line k v : str) : Prop :=
  ∃ key value,
    line = key ++ Chr.COLON :: value ∧ (Chr.COLON ∉ key)
    ∧ trim_of key k ∧ trim_of value v.

(** [last_binding lines k v]: some line binds [k] to [v] and no later line
    binds [k]. *)
Definition last_binding (lines : list str) (k v : str) : Prop :=
  ∃ before line after,
    lines = before ++ line :: after ∧ binds line k v
    ∧ ∀ l v', l ∈ after → ¬ binds l k v'.

Definition unbound (lines : list str) (k : str) : Prop :=
  ∀ l v', l ∈ lines → ¬ binds l k v'.

(** What an analysis request yields from the answer of the service. *)
Definition or_default {A} (default : A) (parse : str → A) (r : exn + str) : A :=
  match r with
  | inl _ => default
  | inr response => parse response
  end.

Definition error_line (line : exn → event) (r : exn + str) : list event :=
  match r with
  | inl e => [line e]
  | inr _ => []
  end.

Definition example_response : str :=
  py "Account Number: 123" ++ [Chr.LF] ++ py "Junk line" ++ [Chr.LF]
  ++ py "Date:2024-01-01".

(** What a handler [except Exception as e: print(line e)] makes of the
    outcome of its [try] block: the exception is printed and the block
    ends normally, unless the line is not written, in which case the
    exception of [print] takes its place. *)
Definition catch_and_print {World} (sv : services World)
    (line : exn → event) (r : outcome (World:=World) unit) : outcome unit :=
  match result r with
  | inr _ => r
  | inl e =>
      match stdout_error sv (line e) with
      | None => Outcome (inr tt) (printed r ++ [line e]) (world r)
      | Some e' => Outcome (inl e') (printed r) (world r)
      end
  end.

(** ** A standard output in UTF-8 with strict errors

    The texts that a line formats as they are (a dictionary and the key of
    a [KeyError] are formatted through [repr], which escapes what cannot be
    encoded), and the output that refuses the surrogate code points. *)
Definition exn_texts (e : exn) : list str :=
  match e with
  | KeyError _ => []
  | ValueError s | UnboundLocalError s | AttributeError s | IndexError s
  | UnicodeEncodeError s | ExternalError s => [s]
  end.

Definition line_texts (ev : event) : list str :=
  match ev with
  | ErrorClassifying e | ErrorExtracting e | ErrorRecognizing e
  | ErrorAnalyzing e | ErrorSummarizing e | ErrorProcessing e => exn_texts e
  | RoutedTo destination _ category intent sentiment =>
      [destination; category; intent; sentiment]
  | CategoryLine s | IntentLine s | SentimentLine s | SummaryLine s
  | RoutingDestination s | ProcessingEmail s => [s]
  | ErrorReadingOrProcessing filename e => filename :: exn_texts e
  | EmailMetadata _ | EntitiesLine _ | ActionsLine _ | SimilarityScore _ => []
  end.

Definition is_surrogate (c : N) : bool := ((55296 <=? c) && (c <=? 57343))%N.

Definition utf8_strict (ev : event) : option exn :=
  if existsb (existsb is_surrogate) (line_texts ev)
  then Some (UnicodeEncodeError (py "surrogates not allowed"))
  else None.

(** ** Concrete collaborators for the examples *)

(** A service that is down, and one that answers every prompt with the same
    text; no file and no message. *)
Definition out_of_service : services unit :=
  Services (λ _ w, (inl (ExternalError (py "service unavailable")), w))
           (λ _, inl (ExternalError (py "malformed message")))
           (λ _, [])
           (λ _, inl (ExternalError (py "no such file")))
           (λ _, None).

Definition canned (response : str) : services unit :=
  Services (λ _ w, (inr response, w))
           (λ _, inl (ExternalError (py "malformed message")))
           (λ _, [])
           (λ _, inl (ExternalError (py "no such file")))
           (λ _, None).

(** A multipart message whose only part is HTML, and collaborators for which
    every file holds that message while the service is down. *)
Definition html_only : message :=
  Message (λ name, if decide (name = py "From")
                   then inr (Some (py "a@b.com")) else inr None)
          (py "multipart/mixed") (inr None)
          (inr [Message (λ _, inr None) (py "text/html") (inr None) (inl [])]).

Definition html_only_source : services unit :=
  Services (λ _ w, (inl (ExternalError (py "service unavailable")), w))
           (λ _, inr html_only)
           (λ _, [])
           (λ _, inr [])
           (λ _, None).

(** ** Predicates and examples for the further properties *)

(** The part of a mapping whose keys are keys of another one. *)
Definition restrict_to (other d : entities) : entities :=
  filter (λ kv, is_Some (other !! kv.1)) d.

(** The lines that [process_email] prints after the analysis, for the
    analysis [a] and the sender address [sender] of the metadata. *)
Definition report_lines (a : analysis) (sender : mval) : list event :=
  let d := Table.decision (a_category a) sender (a_sentiment a) in
  [CategoryLine (a_category a); EntitiesLine (a_entities a);
   IntentLine (a_intent a); SentimentLine (a_sentiment a);
   SummaryLine (a_summary a);
   RoutedTo d.1 d.2 (a_category a) (a_intent a) (a_sentiment a);
   RoutingDestination d.1; ActionsLine d.2;
   SimilarityScore
     (calculate_similarity_score (a_entities a) expected_entities)].

(** The lines printed by the loop of [main] itself. *)
Definition is_loop_line (ev : event) : bool :=
  match ev with
  | ProcessingEmail _ | ErrorReadingOrProcessing _ _ => true
  | _ => false
  end.

(** The line of the loop of [main] for one file of the listing. *)
Definition loop_line {World} (sv : services World) (filename : str)
  : list event :=
  if endswith filename (py ".eml") then
    match read_file sv filename with
    | inl e => [ErrorReadingOrProcessing filename e]
    | inr _ => [ProcessingEmail filename]
    end
  else [].

(** [quiet m]: none of the lines that [m] prints is a line of the loop. *)
Definition quiet {World A} (m : @M World A) : Prop :=
  ∀ w : World, Forall (λ ev, is_loop_line ev = false) (printed (m w)).

(** A single-part message with a [From] header, a message with two plain
    parts after an HTML one, and collaborators whose parser returns the
    former while the service is down. *)
Definition plain_message : message :=
  Message (λ name, if decide (name = py "From")
                   then inr (Some (py "a@b.com")) else inr None)
          (py "text/plain") (inr None) (inl []).

Definition two_plain : message :=
  Message (λ _, inr None) (py "multipart/alternative") (inr None)
    (inr [Message (λ _, inr None) (py "text/html") (inr None) (inl []);
          Message (λ _, inr None) (py "text/plain") (inr None) (inl [Byte.x31]);
          Message (λ _, inr None) (py "text/plain") (inr None) (inl [Byte.x32])]).

Definition plain_source : services unit :=
  Services (λ _ w, (inl (ExternalError (py "service unavailable")), w))
           (λ _, inr plain_message)
           (λ _, py "Hello")
           (λ _, inr [])
           (λ _, None).

(** A message with an attachment two levels down, and collaborators whose
    parser returns it. *)
Definition nested_attachment : message :=
  Message (λ _, inr None) (py "multipart/mixed") (inr None)
    (inr [Message (λ _, inr None) (py "text/plain") (inr None) (inl []);
          Message (λ _, inr None) (py "multipart/related") (inr None)
            (inr [Message (λ _, inr None) (py "application/pdf")
                    (inr (Some (py "invoice.pdf"))) (inl [])])]).

Definition nested_source : services unit :=
  Services (λ _ w, (inl (ExternalError (py "service unavailable")), w))
           (λ _, inr nested_attachment)
           (λ _, [])
           (λ _, inr [])
           (λ _, None).

(** A lone surrogate code point, and collaborators with a strict UTF-8
    output whose service fails with a message that holds it. *)
Definition lone_surrogate : str := [55296%N].

Definition strict_console : services unit :=
  Services (λ _ w, (inl (ExternalError lone_surrogate), w))
           (λ _, inr plain_message)
           (λ _, py "Hello")
           (λ _, inr [])
           utf8_strict.

(** A multipart message without plain text whose [From] header cannot be
    read, and collaborators whose parser returns it. *)
Definition unreadable_from : message :=
  Message (λ name, if decide (name = py "From")
                   then inl (IndexError (py "string index out of range"))
                   else inr None)
          (py "multipart/mixed") (inr None)
          (inr [Message (λ _, inr None) (py "text/html") (inr None) (inl [])]).

Definition unreadable_from_source : services unit :=
  Services (λ _ w, (inl (ExternalError (py "service unavailable")), w))
           (λ _, inr unreadable_from)
           (λ _, [])
           (λ _, inr [])
           (λ _, None).

(** What a call that prints [line] and then returns [a] yields. *)
Definition logged {World A} (sv : services World) (line : event) (a : A)
    (w : World) : outcome A :=
  match stdout_error sv line with
  | None => Outcome (inr a) [line] w
  | Some e => Outcome (inl e) [] w
  end.

(** A response whose lines have whitespace at both ends of the key and of
    the value, and a key that comes twice. *)
Definition padded_response : str :=
  py " Customer Name :  John Smith  " ++ [Chr.LF] ++ py "Amount: 10"
  ++ [13%N; Chr.LF] ++ py "Amount : 20 ".

(** What the five requests of [analyze_email] yield when each error line
    is written: the analysis, the error lines and the state of the service
    after the fifth request. *)
Definition requested {World} (sv : services World) (content : str)
    (w : World) : outcome analysis :=
  let r1 := predict sv (classify_prompt content) w in
  let r2 := predict sv (entities_prompt content) r1.2 in
  let r3 := predict sv (intent_prompt content) r2.2 in
  let r4 := predict sv (sentiment_prompt content) r3.2 in
  let r5 := predict sv (summary_prompt content) r4.2 in
  Outcome
    (inr {| a_category := or_default (py "General Inquiry") strip r1.1;
            a_entities :=
              or_default entities_default
                (λ response, foldl entities_put ∅ (splitlines response))
                r2.1;
            a_intent := or_default (py "General Inquiry") strip r3.1;
            a_sentiment := or_default (py "Neutral") strip r4.1;
            a_summary :=
              or_default (py "Summary not available.") strip r5.1 |})
    (error_line ErrorClassifying r1.1 ++ error_line ErrorExtracting r2.1
     ++ error_line ErrorRecognizing r3.1 ++ error_line ErrorAnalyzing r4.1
     ++ error_line ErrorSummarizing r5.1)
    r5.2.

(** The two lines of the loop of [main] for a file name are written: the
    [Processing email] line, and the error line for each exception that can
    reach the handler of the loop (the read error of the file, or an
    exception of [print]). *)
Definition loop_lines_written {World} (sv : services World) (filename : str)
  : Prop :=
  stdout_error sv (ProcessingEmail filename) = None
  ∧ ∀ e, (read_file sv filename = inl e ∨ ∃ ev, stdout_error sv ev = Some e) →
         stdout_error sv (ErrorReadingOrProcessing filename e) = None.

(** A file name of the storage directory with a byte that is not UTF-8:
    [os.listdir] decodes it to a lone surrogate. *)
Definition unprintable_name : str := 56575%N :: py ".eml".

(** * Sanity checks of the text functions on concrete inputs *)
Example clean_ex1 :
  clean_email_content (py "<p>Hello   " ++ [Chr.LF] ++ py " World</p>")
  = py "Hello World".
Proof. vm_compute. reflexivity. Qed.

Example clean_ex2 :
  clean_email_content (py "a <> b <<c> d > e < f") = py "a <> b d > e < f".
Proof. vm_compute. reflexivity. Qed.

Example split_ex : split (py "  ab  c d ") = [py "ab"; py "c"; py "d"].
Proof. vm_compute. reflexivity. Qed.

Example strip_ex : strip (py "  a b  ") = py "a b".
Proof. vm_compute. reflexivity. Qed.

Example splitlines_ex :
  splitlines (py "a" ++ [13; 10]%N ++ [10]%N ++ py "b" ++ [10]%N)
  = [py "a"; []; py "b"].
Proof. vm_compute. reflexivity. Qed.

Example split1_ex : split1 Chr.COLON (py "a:b:c") = [py "a"; py "b:c"].
Proof. vm_compute. reflexivity. Qed.

(** * Text functions *)

(** ** Lemmas on tags *)
Lemma has_gt_cons c s : has_gt (c :: s) = (Chr.GT =? c)%N || has_gt s.
Proof. reflexivity. Qed.

Lemma opens_cons c s : opens (c :: s) = negb (c =? Chr.GT)%N && has_gt s.
Proof. reflexivity. Qed.

Lemma starts_tag_cons c s : starts_tag (c :: s) = (c =? Chr.LT)%N && opens s.
Proof. reflexivity. Qed.

Lemma scan_true_cons c s :
  scan true (c :: s) = if (c =? Chr.GT)%N then scan false s else scan true s.
Proof. reflexivity. Qed.

Lemma scan_false_cons c s :
  scan false (c :: s)
  = if starts_tag (c :: s) then scan true s else c :: scan false s.
Proof. reflexivity. Qed.

Lemma has_gt_elem s : has_gt s = true ↔ Chr.GT ∈ s.
Proof.
  unfold has_gt. rewrite existsb_exists. split.
  - intros (c & Hin & Hc). apply N.eqb_eq in Hc. subst c.
    by apply list_elem_of_In.
  - intros Hin. exists Chr.GT. split; [by apply list_elem_of_In|].
    apply N.eqb_refl.
Qed.

Lemma has_gt_split s :
  has_gt s = true → ∃ body rest, (Chr.GT ∉ body) ∧ s = body ++ Chr.GT :: rest.
Proof.
  induction s as [|c s IH]; [done|]. rewrite has_gt_cons.
  destruct (N.eqb_spec Chr.GT c) as [<-|Hc].
  - intros _. exists [], s. split; [apply not_elem_of_nil | done].
  - rewrite orb_false_l. intros Hs.
    destruct (IH Hs) as (body & rest & Hb & ->).
    exists (c :: body), rest.
    split; [|done]. rewrite elem_of_cons. intros [?|?]; done.
Qed.

Lemma starts_tag_spec s :
  starts_tag s = true ↔ ∃ t rest, is_tag t ∧ s = t ++ rest.
Proof.
  split.
  - destruct s as [|c [|c' s]]; [done| |].
    { rewrite starts_tag_cons. by rewrite andb_false_r. }
    rewrite starts_tag_cons, opens_cons.
    intros Hs. apply andb_prop in Hs as [Hc Hs].
    apply andb_prop in Hs as [Hc' Hgt].
    apply N.eqb_eq in Hc. subst c.
    apply negb_true_iff, N.eqb_neq in Hc'.
    destruct (has_gt_split _ Hgt) as (body & rest & Hb & ->).
    exists (Chr.LT :: (c' :: body) ++ [Chr.GT]), rest. split.
    + exists (c' :: body). split_and!; [done| |done].
      rewrite elem_of_cons. intros [?|?]; [congruence|done].
    + cbn [app]. by rewrite <- app_assoc.
  - intros (t & rest & (body & Hne & Hb & ->) & ->).
    destruct body as [|c' body]; [done|].
    apply not_elem_of_cons in Hb as [Hc' Hb].
    cbn [app]. rewrite starts_tag_cons, opens_cons, N.eqb_refl, andb_true_l.
    apply andb_true_intro. split.
    + apply negb_true_iff, N.eqb_neq. congruence.
    + apply has_gt_elem. rewrite <- app_assoc. set_solver.
Qed.

Lemma scan_inside body rest :
  Chr.GT ∉ body → scan true (body ++ Chr.GT :: rest) = scan false rest.
Proof.
  induction body as [|c body IH]; intros Hb; cbn [app];
    rewrite scan_true_cons.
  - by rewrite N.eqb_refl.
  - apply not_elem_of_cons in Hb as [Hc Hb].
    destruct (N.eqb_spec c Chr.GT) as [->|_]; [done|]. by apply IH.
Qed.

Lemma scan_tag t rest : is_tag t → scan false (t ++ rest) = scan false rest.
Proof.
  intros Ht. assert (Hs : starts_tag (t ++ rest) = true).
  { apply starts_tag_spec. eauto. }
  destruct Ht as (body & Hne & Hb & ->).
  cbn [app] in *. rewrite scan_false_cons, Hs, <- app_assoc.
  by apply scan_inside.
Qed.

Lemma scan_keep c s :
  starts_tag (c :: s) = false → scan false (c :: s) = c :: scan false s.
Proof. intros H. by rewrite scan_false_cons, H. Qed.

Lemma re_sub_tags_strips s : strips_to s (re_sub_tags s).
Proof.
  unfold re_sub_tags.
  remember (length s) as n eqn:Hn. revert s Hn.
  induction (lt_wf n) as [n _ IH]. intros s ->.
  destruct s as [|c s]; [constructor|].
  destruct (starts_tag (c :: s)) eqn:Hs.
  - apply starts_tag_spec in Hs as (t & rest & Ht & Heq).
    rewrite Heq, scan_tag by done. constructor; [done|].
    eapply IH; [|reflexivity]. rewrite Heq, length_app.
    destruct Ht as (body & _ & _ & ->). cbn. lia.
  - rewrite scan_keep by done. constructor.
    + intros t rest Ht Heq.
      assert (starts_tag (c :: s) = true); [|congruence].
      apply starts_tag_spec. eauto.
    + eapply IH; [|reflexivity]. cbn. lia.
Qed.

Lemma isspace_not_gt c : isspace c = true → (Chr.GT =? c)%N = false.
Proof.
  intros Hc. destruct (N.eqb_spec Chr.GT c) as [<-|]; [|done].
  by vm_compute in Hc.
Qed.

Lemma isspace_not_lt c : isspace c = true → (c =? Chr.LT)%N = false.
Proof.
  intros Hc. destruct (N.eqb_spec c Chr.LT) as [->|]; [|done].
  by vm_compute in Hc.
Qed.

Lemma has_gt_false_opens s : has_gt s = false → opens s = false.
Proof.
  destruct s as [|c s]; [done|]. rewrite has_gt_cons, opens_cons.
  intros [_ ->]%orb_false_elim. apply andb_false_r.
Qed.

Lemma has_gt_scan b s : has_gt s = false → has_gt (scan b s) = false.
Proof.
  revert b. induction s as [|c s IH]; intros b; [by destruct b|].
  rewrite has_gt_cons. intros [Hc Hs]%orb_false_elim.
  destruct b.
  - rewrite scan_true_cons. destruct (c =? Chr.GT)%N; by apply IH.
  - rewrite scan_false_cons. destruct (starts_tag (c :: s)); [by apply IH|].
    rewrite has_gt_cons, Hc. by apply IH.
Qed.

Lemma opens_scan s : opens s = false → opens (scan false s) = false.
Proof.
  destruct s as [|c s]; [done|]. rewrite opens_cons. intros Ho.
  rewrite scan_false_cons, starts_tag_cons.
  destruct (N.eqb_spec c Chr.GT) as [->|Hc].
  - change (Chr.GT =? Chr.LT)%N with false. rewrite andb_false_l.
    by rewrite opens_cons, N.eqb_refl.
  - rewrite andb_true_l in Ho.
    rewrite (has_gt_false_opens _ Ho), andb_false_r, opens_cons.
    by rewrite has_gt_scan, andb_false_r.
Qed.

Lemma tag_free_cons c s :
  tag_free (c :: s) = negb (starts_tag (c :: s)) && tag_free s.
Proof. reflexivity. Qed.

Lemma tag_free_scan b s : tag_free (scan b s) = true.
Proof.
  revert b. induction s as [|c s IH]; intros b; [by destruct b|].
  destruct b.
  - rewrite scan_true_cons. by destruct (c =? Chr.GT)%N.
  - rewrite scan_false_cons. destruct (starts_tag (c :: s)) eqn:Hs; [done|].
    rewrite tag_free_cons, IH, andb_true_r, starts_tag_cons.
    rewrite starts_tag_cons in Hs.
    destruct (c =? Chr.LT)%N; [|done].
    rewrite andb_true_l in *. by rewrite opens_scan.
Qed.

Lemma scan_tag_free s : tag_free s = true → scan false s = s.
Proof.
  induction s as [|c s IH]; [done|]. rewrite tag_free_cons.
  intros [Hs Hf]%andb_prop. apply negb_true_iff in Hs.
  rewrite scan_keep by done. by rewrite IH.
Qed.

Lemma tag_free_no_tag s :
  tag_free s = true → ∀ a t b, is_tag t → s ≠ a ++ t ++ b.
Proof.
  intros Hf a. revert s Hf. induction a as [|c a IH]; intros s Hf t b Ht ->.
  - destruct t as [|c t]; [by destruct Ht as (? & _ & _ & ?)|].
    cbn [app] in Hf. rewrite tag_free_cons in Hf.
    apply andb_prop in Hf as [Hs _]. apply negb_true_iff in Hs.
    assert (starts_tag ((c :: t) ++ b) = true); [|cbn [app] in *; congruence].
    apply starts_tag_spec. eauto.
  - cbn [app] in Hf. rewrite tag_free_cons in Hf.
    apply andb_prop in Hf as [_ Hf]. by eapply IH.
Qed.

(** ** Lemmas on words *)
Lemma split_cons_space c s : isspace c = true → split (c :: s) = split s.
Proof. intros H. cbn [split]. by rewrite H. Qed.

Lemma split_cons_nonspace c s :
  isspace c = false →
  split (c :: s) = match s with
                   | [] => [[c]]
                   | c' :: _ => if isspace c' then [c] :: split s
                                else cons_word c (split s)
                   end.
Proof. intros H. cbn [split]. by rewrite H. Qed.

Lemma cons_word_nonempty c ws : cons_word c ws ≠ [].
Proof. by destruct ws. Qed.

Lemma split_nonspace_nonempty c s : isspace c = false → split (c :: s) ≠ [].
Proof.
  intros H. rewrite split_cons_nonspace by done.
  destruct s as [|c' s]; [done|]. destruct (isspace c'); [done|].
  apply cons_word_nonempty.
Qed.

Lemma word_cons_word c ws :
  isspace c = false → Forall word ws → Forall word (cons_word c ws).
Proof.
  intros Hc Hws. destruct Hws as [|w ws [Hne Hw] Hws]; cbn.
  - repeat constructor; done.
  - constructor; [|done]. split; [done|]. by constructor.
Qed.

Lemma split_words s : Forall word (split s).
Proof.
  induction s as [|c s IH]; [constructor|].
  destruct (isspace c) eqn:Hc.
  - by rewrite split_cons_space.
  - rewrite split_cons_nonspace by done. destruct s as [|c' s].
    + repeat constructor; done.
    + destruct (isspace c').
      * constructor; [|done]. split; [done|]. by repeat constructor.
      * by apply word_cons_word.
Qed.

Lemma split_app_word w r :
  word w → (∀ c r', r = c :: r' → isspace c = true) →
  split (w ++ r) = w :: split r.
Proof.
  intros [Hne Hw] Hr. induction Hw as [|c w Hc Hw IH]; [done|]. clear Hne.
  cbn [app]. rewrite split_cons_nonspace by done.
  destruct Hw as [|c' w Hc' Hw]; cbn [app].
  - destruct r as [|c' r']; [done|]. by rewrite (Hr c' r').
  - cbn [app] in IH. rewrite Hc', IH by done. done.
Qed.

Lemma split_join ws : Forall word ws → split (join (py " ") ws) = ws.
Proof.
  induction 1 as [|w ws Hw Hws IH]; [done|].
  destruct ws as [|w' ws].
  - cbn [join]. rewrite <- (app_nil_r w) at 1.
    by rewrite split_app_word.
  - change (join (py " ") (w :: w' :: ws))
      with (w ++ Chr.SPACE :: join (py " ") (w' :: ws)).
    rewrite split_app_word; [|done|by intros ?? [= <- _]].
    by rewrite split_cons_space, IH.
Qed.

Lemma split_normalized s : split (join (py " ") (split s)) = split s.
Proof. apply split_join, split_words. Qed.

(** ** Whitespace normalisation *)

Lemma normalize_cons_space c s :
  isspace c = true → normalize (c :: s) = normalize s.
Proof. intros H. unfold normalize. by rewrite split_cons_space. Qed.

Lemma normalize_cons_nonspace c s :
  isspace c = false →
  normalize (c :: s)
  = c :: match s with
         | [] => []
         | c' :: _ =>
             if isspace c'
             then match split s with
                  | [] => []
                  | _ => Chr.SPACE :: normalize s
                  end
             else normalize s
         end.
Proof.
  intros Hc. unfold normalize. rewrite split_cons_nonspace by done.
  destruct s as [|c' s]; [done|]. destruct (isspace c') eqn:Hc'.
  - by destruct (split (c' :: s)).
  - pose proof (split_nonspace_nonempty c' s Hc') as Hne.
    destruct (split (c' :: s)) as [|w [|w' ws]]; done.
Qed.

Lemma has_gt_normalize s : has_gt (normalize s) = has_gt s.
Proof.
  induction s as [|c s IH]; [done|]. rewrite has_gt_cons.
  destruct (isspace c) eqn:Hc.
  - by rewrite normalize_cons_space, isspace_not_gt.
  - rewrite normalize_cons_nonspace, has_gt_cons by done. f_equal.
    destruct s as [|c' s]; [done|]. destruct (isspace c'); [|done].
    rewrite <- IH. unfold normalize. by destruct (split (c' :: s)).
Qed.

Lemma tag_free_normalize s : tag_free s = true → tag_free (normalize s) = true.
Proof.
  induction s as [|c s IH]; [done|]. rewrite tag_free_cons.
  intros [Hs Hf]%andb_prop. apply negb_true_iff in Hs. specialize (IH Hf).
  destruct (isspace c) eqn:Hc; [by rewrite normalize_cons_space|].
  rewrite normalize_cons_nonspace, tag_free_cons by done.
  rewrite starts_tag_cons in Hs |- *.
  apply andb_true_intro. split.
  - apply negb_true_iff. destruct (c =? Chr.LT)%N; [|done].
    rewrite andb_true_l in *. destruct s as [|c' s]; [done|].
    rewrite opens_cons in Hs. destruct (isspace c') eqn:Hc'.
    + destruct (split (c' :: s)); [done|].
      rewrite opens_cons, has_gt_normalize, has_gt_cons.
      rewrite (isspace_not_gt c') in * by done.
      rewrite N.eqb_sym, (isspace_not_gt c') in Hs by done.
      by rewrite andb_true_l in Hs.
    + pose proof (has_gt_normalize (c' :: s)) as Hg.
      rewrite normalize_cons_nonspace in Hg |- * by done.
      rewrite has_gt_cons in Hg. rewrite opens_cons.
      destruct (N.eqb_spec c' Chr.GT) as [->|Hne]; [done|].
      rewrite andb_true_l in *. rewrite has_gt_cons, Hs, orb_false_r in Hg.
      assert (Hgc : (Chr.GT =? c')%N = false) by (apply N.eqb_neq; congruence).
      by rewrite Hgc, orb_false_l in Hg.
  - destruct s as [|c' s]; [done|]. destruct (isspace c') eqn:Hc'; [|done].
    destruct (split (c' :: s)); [done|].
    by rewrite tag_free_cons, starts_tag_cons.
Qed.

(** The shape of a normalised text: words separated by one space. *)
Lemma join_words_elem ws c :
  Forall word ws → c ∈ join (py " ") ws → isspace c = true → c = Chr.SPACE.
Proof.
  induction 1 as [|w ws [_ Hw] Hws IH]; [by intros ?%elem_of_nil|].
  assert (Hin : c ∈ w → isspace c = true → c = Chr.SPACE).
  { intros Hc Hsp. rewrite Forall_forall in Hw. specialize (Hw c Hc).
    congruence. }
  destruct ws as [|w' ws]; [done|].
  change (join (py " ") (w :: w' :: ws))
    with (w ++ Chr.SPACE :: join (py " ") (w' :: ws)).
  rewrite elem_of_app, elem_of_cons. intros [?|[?|?]]; auto.
Qed.

Lemma join_words_head ws c r :
  Forall word ws → join (py " ") ws = c :: r → isspace c = false.
Proof.
  destruct 1 as [|w ws [Hne Hw] Hws]; [done|].
  destruct Hw as [|c' w Hc' Hw]; [done|].
  destruct ws; cbn; by intros [= <- _].
Qed.

Lemma join_words_last ws a c :
  Forall word ws → join (py " ") ws = a ++ [c] → isspace c = false.
Proof.
  intros Hws. revert a.
  induction Hws as [|w ws [Hne Hw] Hws IH]; intros a.
  { by destruct a. }
  destruct ws as [|w' ws].
  - cbn [join]. intros ->. rewrite Forall_app, Forall_singleton in Hw.
    by destruct Hw.
  - change (join (py " ") (w :: w' :: ws))
      with (w ++ Chr.SPACE :: join (py " ") (w' :: ws)).
    destruct (join (py " ") (w' :: ws)) as [|c0 r] eqn:Hj using rev_ind.
    { inversion Hws as [|?? [Hne' _] _]; subst. destruct w'; [done|].
      destruct ws; cbn in Hj; [done|]. discriminate. }
    clear IHr. intros Heq.
    replace (w ++ Chr.SPACE :: r ++ [c0]) with ((w ++ Chr.SPACE :: r) ++ [c0])
      in Heq by by rewrite <- app_assoc.
    apply app_inj_tail in Heq as [_ <-]. by apply (IH r).
Qed.

Lemma join_words_adjacent ws a c1 c2 b :
  Forall word ws → join (py " ") ws = a ++ c1 :: c2 :: b →
  isspace c1 = true → isspace c2 = false.
Proof.
  intros Hws. revert a.
  induction Hws as [|w ws [Hne Hw] Hws IH]; intros a.
  { by destruct a. }
  assert (Hnext : ∀ r, (∀ c r', r = c :: r' → isspace c = false) →
            (∀ a, r = a ++ c1 :: c2 :: b → isspace c1 = true →
                  isspace c2 = false) →
            ∀ a, w ++ Chr.SPACE :: r = a ++ c1 :: c2 :: b →
                 isspace c1 = true → isspace c2 = false).
  { intros r Hhead Hr. clear Hne IH.
    induction Hw as [|c w Hc Hw IHw]; intros a'.
    - destruct a' as [|c' a']; cbn [app].
      + intros [= <- ->] _. by eapply Hhead.
      + intros [= <- ->]. by apply (Hr a').
    - destruct a' as [|c' a']; cbn [app].
      + intros [= <- _]. congruence.
      + intros [= <- Heq]. by eapply IHw. }
  destruct ws as [|w' ws].
  - cbn [join]. intros -> Hc1. rewrite Forall_app, Forall_cons in Hw.
    destruct Hw as (_ & Hc1' & _). congruence.
  - change (join (py " ") (w :: w' :: ws))
      with (w ++ Chr.SPACE :: join (py " ") (w' :: ws)).
    apply Hnext; [|done]. intros c r'. by apply join_words_head.
Qed.

Lemma strips_to_unique s out : strips_to s out → out = re_sub_tags s.
Proof.
  unfold re_sub_tags. induction 1 as [|t rest out Ht _ IH|c s out Hc _ IH].
  - done.
  - by rewrite scan_tag.
  - rewrite scan_keep, IH; [done|].
    destruct (starts_tag (c :: s)) eqn:Hs; [|done].
    apply starts_tag_spec in Hs as (t & rest & Ht & Heq).
    by destruct (Hc t rest Ht).
Qed.

Lemma re_sub_tags_tag_free s : tag_free s = true → re_sub_tags s = s.
Proof. apply scan_tag_free. Qed.

Lemma clean_email_content_normalize s :
  clean_email_content s = normalize (re_sub_tags s).
Proof. reflexivity. Qed.

(** C8: [clean_email_content] deletes the matches of [<[^>]+>] from left to
    right (whatever stands between the brackets), so that no tag is left;
    the result has the words of the stripped text, separated by exactly one
    space, with no other whitespace character and none at either end; the
    empty string is mapped to itself and the documented example to
    ["Hello World"]. *)
Theorem clean_email_content_spec (s : str) :
  let stripped := re_sub_tags s in
  let r := clean_email_content s in
  (∀ out, strips_to s out ↔ out = stripped)
  ∧ (∀ a t b, is_tag t → r ≠ a ++ t ++ b)
  ∧ split r = split stripped
  ∧ (∀ c, c ∈ r → isspace c = true → c = Chr.SPACE)
  ∧ (∀ a c1 c2 b,
       r = a ++ c1 :: c2 :: b → isspace c1 = true → isspace c2 = false)
  ∧ (∀ c b, r = c :: b → isspace c = false)
  ∧ (∀ a c, r = a ++ [c] → isspace c = false)
  ∧ clean_email_content [] = []
  ∧ clean_email_content (py "<p>Hello   " ++ [Chr.LF] ++ py " World</p>")
    = py "Hello World".
Proof.
  cbn zeta. rewrite clean_email_content_normalize.
  pose proof (split_words (re_sub_tags s)) as Hws.
  split_and!.
  - intros out. split; [apply strips_to_unique|].
    intros ->. apply re_sub_tags_strips.
  - apply tag_free_no_tag, tag_free_normalize, tag_free_scan.
  - apply split_normalized.
  - intros c. by apply join_words_elem.
  - intros a c1 c2 b. by apply join_words_adjacent.
  - intros c b. by apply join_words_head.
  - intros a c. by apply join_words_last.
  - reflexivity.
  - vm_compute. reflexivity.
Qed.

(** C9: [clean_email_content] is idempotent. *)
Theorem clean_email_content_idempotent (s : str) :
  clean_email_content (clean_email_content s) = clean_email_content s.
Proof.
  rewrite !clean_email_content_normalize.
  rewrite (re_sub_tags_tag_free (normalize (re_sub_tags s))).
  - unfold normalize. by rewrite split_normalized.
  - apply tag_free_normalize, tag_free_scan.
Qed.

(** * The similarity scorer *)
Section Similarity.
Implicit Types extracted expected : entities.

Lemma similarity_counts_sizes extracted expected :
  similarity_counts extracted expected
  = (size (filter (agrees extracted) expected),
     size (filter (present extracted) expected)).
Proof.
  unfold similarity_counts.
  apply (map_fold_weak_ind (λ r m,
    r = (size (filter (agrees extracted) m),
         size (filter (present extracted) m)))).
  - by rewrite !map_filter_empty.
  - intros key value m r Hkey ->. unfold similarity_step.
    assert (Hfresh : ∀ P `{!∀ x, Decision (P x)},
              filter P m !! key = None).
    { intros P ?. apply map_lookup_filter_None. by left. }
    destruct (extracted !! key) as [v|] eqn:Hv.
    + rewrite (map_filter_insert_True (present extracted))
        by (unfold present; cbn; rewrite Hv; eauto).
      rewrite (map_size_insert_None _ _ (filter (present extracted) m))
        by apply Hfresh.
      case_decide as Heq.
      * subst v. rewrite (map_filter_insert_True (agrees extracted)) by done.
        by rewrite map_size_insert_None by apply Hfresh.
      * rewrite (map_filter_insert_False (agrees extracted))
          by (unfold agrees; cbn; congruence).
        by rewrite delete_id.
    + rewrite (map_filter_insert_False (present extracted))
        by (unfold present; cbn; rewrite Hv; by intros [??]).
      rewrite (map_filter_insert_False (agrees extracted))
        by (unfold agrees; cbn; congruence).
      by rewrite delete_id.
Qed.

Lemma agrees_le_present extracted expected :
  size (filter (agrees extracted) expected)
  ≤ size (filter (present extracted) expected).
Proof.
  apply map_subseteq_size, map_subseteq_spec. intros k v.
  rewrite !map_lookup_filter_Some. unfold agrees, present. cbn.
  intros [? Heq]. by rewrite Heq.
Qed.

(** C4: the score is [matches / total], where [total] counts the expected
    entries whose key is extracted and [matches] those whose value is
    moreover the extracted value; it is [0] when [total] is [0], and lies
    between [0] and [1]; the two documented examples score [1] and [0]. *)
Theorem calculate_similarity_score_spec extracted expected :
  let total := size (filter (present extracted) expected) in
  let matches := size (filter (agrees extracted) expected) in
  let score := calculate_similarity_score extracted expected in
  similarity_counts extracted expected = (matches, total)
  ∧ score = (if decide (total = 0) then 0%Q
             else (Z.of_nat matches # Pos.of_nat total)%Q)
  ∧ (0 <= score)%Q ∧ (score <= 1)%Q
  ∧ calculate_similarity_score
      {[ py "Account Number" := py "123" ]}
      {[ py "Account Number" := py "123"; py "Date" := py "N/A" ]} = 1%Q
  ∧ calculate_similarity_score ∅ ∅ = 0%Q.
Proof.
  cbn zeta. unfold calculate_similarity_score.
  rewrite similarity_counts_sizes.
  pose proof (agrees_le_present extracted expected) as Hle.
  split_and!; try done.
  - case_decide; [done|]. unfold Qle. cbn. lia.
  - case_decide; [done|]. unfold Qle. cbn. lia.
Qed.
End Similarity.

(** The comparison of the values is case-sensitive. *)
Example similarity_case_sensitive :
  calculate_similarity_score {[ py "Customer Name" := py "john smith" ]}
    {[ py "Customer Name" := py "John Smith" ]} = 0%Q.
Proof. vm_compute. reflexivity. Qed.

(** * Trimming *)
Lemma lstrip_split s :
  ∃ p, s = p ++ lstrip s ∧ Forall (λ c, isspace c = true) p.
Proof.
  induction s as [|c s (p & Hs & Hp)]; [by exists []|]. cbn [lstrip].
  destruct (isspace c) eqn:Hc.
  - exists (c :: p). split; [by rewrite Hs at 1|by constructor].
  - by exists [].
Qed.

Lemma lstrip_head s c r : lstrip s = c :: r → isspace c = false.
Proof.
  induction s as [|c' s IH]; [done|]. cbn [lstrip].
  destruct (isspace c') eqn:Hc; [done|]. by intros [= <- _].
Qed.

Lemma lstrip_id s : (∀ c r, s = c :: r → isspace c = false) → lstrip s = s.
Proof.
  destruct s as [|c s]; [done|]. intros H. cbn [lstrip].
  by rewrite (H c s).
Qed.

Lemma rstrip_split s :
  ∃ q, s = rstrip s ++ q ∧ Forall (λ c, isspace c = true) q.
Proof.
  unfold rstrip. destruct (lstrip_split (reverse s)) as (p & Hs & Hp).
  exists (reverse p). split; [|by apply Forall_reverse].
  rewrite <- reverse_app, <- Hs. by rewrite reverse_involutive.
Qed.

Lemma rstrip_last s r c : rstrip s = r ++ [c] → isspace c = false.
Proof.
  unfold rstrip. intros H. apply (f_equal reverse) in H.
  rewrite reverse_involutive, reverse_app, reverse_singleton in H.
  by eapply lstrip_head.
Qed.

Lemma rstrip_id s : (∀ r c, s = r ++ [c] → isspace c = false) → rstrip s = s.
Proof.
  intros H. unfold rstrip. rewrite lstrip_id; [apply reverse_involutive|].
  intros c r Hr. apply (H (reverse r)).
  apply (f_equal reverse) in Hr. rewrite reverse_involutive in Hr.
  by rewrite Hr, reverse_cons.
Qed.

Lemma rstrip_head s c r :
  s = c :: r → isspace c = false → ∃ r', rstrip s = c :: r'.
Proof.
  intros -> Hc. destruct (rstrip_split (c :: r)) as (q & Hs & Hq).
  destruct (rstrip (c :: r)) as [|c' r'].
  - cbn in Hs. subst q. apply Forall_cons in Hq as [? _]. congruence.
  - injection Hs as <- _. eauto.
Qed.

Lemma strip_trimmed s : trimmed (strip s).
Proof.
  unfold strip. split.
  - intros c r Hr. destruct (lstrip s) as [|c' r'] eqn:Hl; [done|].
    pose proof (lstrip_head _ _ _ Hl) as Hc'.
    destruct (rstrip_head _ c' r' eq_refl Hc') as [r'' Hr''].
    rewrite Hr'' in Hr. by injection Hr as <- _.
  - intros r c. apply rstrip_last.
Qed.

Lemma strip_id s : trimmed s → strip s = s.
Proof.
  intros [Hh Hl]. unfold strip. rewrite (lstrip_id s) by done.
  by apply rstrip_id.
Qed.

Lemma strip_elem s c : c ∈ strip s → c ∈ s.
Proof.
  unfold strip. intros Hc.
  destruct (lstrip_split s) as (p & Hs & _).
  destruct (rstrip_split (lstrip s)) as (q & Hl & _).
  rewrite Hs, Hl. set_solver.
Qed.

(** * The computations *)
Section Computations.
Context {World : Type} (sv : services World).
Implicit Types (w : World).

Lemma bind_ok {A B} (m : M A) (k : A → M B) w a out w' :
  m w = Outcome (inr a) out w' →
  bind m k w
  = Outcome (result (k a w')) (out ++ printed (k a w')) (world (k a w')).
Proof. intros H. unfold bind. by rewrite H. Qed.

Lemma bind_err {A B} (m : M A) (k : A → M B) w e out w' :
  m w = Outcome (inl e) out w' → bind m k w = Outcome (inl e) out w'.
Proof. intros H. unfold bind. by rewrite H. Qed.

Lemma bind_silent {A B} (m : M A) (k : A → M B) w a :
  m w = Outcome (inr a) [] w → bind m k w = k a w.
Proof. intros H. rewrite (bind_ok _ _ _ _ _ _ H). by destruct (k a w). Qed.

Lemma bind_print_ret {A} ev (a : A) w :
  bind (print sv ev) (λ _, ret a) w = logged sv ev a w.
Proof. unfold bind, print, ret, logged. by destruct (stdout_error sv ev). Qed.

Lemma bind_print {B} (ev : event) (k : unit → M B) w :
  bind (print sv ev) k w
  = match stdout_error sv ev with
    | None => Outcome (result (k tt w)) (ev :: printed (k tt w))
                (world (k tt w))
    | Some e => Outcome (inl e) [] w
    end.
Proof. unfold bind, print. by destruct (stdout_error sv ev). Qed.

(** [try: m except Exception as e: print(line e)] *)
Lemma try_except_print (m : M unit) (line : exn → event) w :
  try_except m (λ e, print sv (line e)) w = catch_and_print sv line (m w).
Proof.
  unfold try_except, catch_and_print, print.
  destruct (m w) as [[e|[]] out w']; [|done]. cbn.
  destruct (stdout_error sv (line e)); by rewrite ?app_nil_r.
Qed.
End Computations.

(** * The routing engine *)
Section Routing.
Context {World : Type} (sv : services World).
Implicit Types (w : World) (md : metadata) (category sentiment : str).

(** The chain of comparisons of [route_email] against the table, when the
    metadata has a sender address. *)
Lemma route_email_with_sender
    category ents intent sentiment summary md sender w :
  md !! py "sender_email" = Some sender →
  route_email sv category ents intent sentiment summary md w
  = let d := Table.decision category sender sentiment in
    logged sv (RoutedTo d.1 d.2 category intent sentiment) d w.
Proof.
  intros Hs. unfold route_email.
  rewrite (bind_silent _ _ w (Table.decision category sender sentiment)).
  - cbn zeta. rewrite bind_print_ret.
    by destruct (Table.decision category sender sentiment).
  - unfold getitem. rewrite Hs.
    unfold Table.decision, Table.rows, Table.find_row.
    repeat case_decide; subst; done.
Qed.

Lemma route_email_no_sender category ents intent sentiment summary md w :
  md !! py "sender_email" = None →
  route_email sv category ents intent sentiment summary md w
  = if decide (category = py "Fraud Report" ∨ category = py "Account Inquiry")
    then Outcome (inl (KeyError (py "sender_email"))) [] w
    else let d := Table.decision category (MStr []) sentiment in
         logged sv (RoutedTo d.1 d.2 category intent sentiment) d w.
Proof.
  intros Hs. unfold route_email.
  destruct (decide (category = py "Fraud Report")) as [->|H1].
  { unfold getitem. rewrite Hs. done. }
  destruct (decide (category = py "Account Inquiry")) as [->|H2].
  { unfold getitem. rewrite Hs. done. }
  rewrite (decide_False (P:=_ ∨ _)) by (intros [?|?]; done).
  rewrite (bind_silent _ _ w (Table.decision category (MStr []) sentiment)).
  - cbn zeta. rewrite bind_print_ret.
    by destruct (Table.decision category (MStr []) sentiment).
  - unfold Table.decision, Table.rows, Table.find_row.
    repeat case_decide; subst; done.
Qed.

(** Outside the two rows that read it, the sender address is not looked
    at. *)
Lemma decision_without_sender category sender sender' sentiment :
  category ≠ py "Fraud Report" → category ≠ py "Account Inquiry" →
  Table.decision category sender sentiment
  = Table.decision category sender' sentiment.
Proof.
  intros H1 H2. unfold Table.decision, Table.rows, Table.find_row.
  repeat case_decide; subst; done.
Qed.

(** C1 (amended): for every category, entities, intent, sentiment and
    summary, and every metadata mapping with a sender address, [route_email]
    prints and returns the destination and the actions of the row of the
    table whose key is the category (of the default row for any other
    category), whenever the log line of the decision is written; when it is
    not, the exception of [print] is raised instead.  The service is left
    untouched. *)
Theorem route_email_table category ents intent sentiment summary md sender w :
  md !! py "sender_email" = Some sender →
  let d := Table.decision category sender sentiment in
  let line := RoutedTo d.1 d.2 category intent sentiment in
  route_email sv category ents intent sentiment summary md w
  = match stdout_error sv line with
    | None => Outcome (inr d) [line] w
    | Some e => Outcome (inl e) [] w
    end.
Proof. apply route_email_with_sender. Qed.

(** C5 (amended): [route_email] raises [KeyError] when the category is
    ["Fraud Report"] or ["Account Inquiry"] and the metadata has no
    ["sender_email"] key; in every other case it returns the decision of the
    table when the log line of the decision is written, and raises the
    exception of [print] when it is not. *)
Theorem route_email_returns category ents intent sentiment summary md w :
  (md !! py "sender_email" = None →
   category = py "Fraud Report" ∨ category = py "Account Inquiry" →
   result (route_email sv category ents intent sentiment summary md w)
   = inl (KeyError (py "sender_email")))
  ∧ (∀ sender,
       md !! py "sender_email" = Some sender
       ∨ (md !! py "sender_email" = None
          ∧ category ≠ py "Fraud Report" ∧ category ≠ py "Account Inquiry") →
       let d := Table.decision category sender sentiment in
       result (route_email sv category ents intent sentiment summary md w)
       = match stdout_error sv (RoutedTo d.1 d.2 category intent sentiment)
         with
         | None => inr d
         | Some e => inl e
         end).
Proof.
  split.
  - intros Hs Hc. rewrite route_email_no_sender by done.
    by rewrite decide_True.
  - intros sender [Hs|(Hs & H1 & H2)]; cbn zeta.
    + rewrite (route_email_with_sender _ _ _ _ _ _ sender) by done.
      cbn zeta. unfold logged. by destruct (stdout_error sv _).
    + rewrite route_email_no_sender by done.
      rewrite decide_False by (intros [?|?]; done). cbn zeta.
      rewrite (decision_without_sender _ (MStr []) sender) by done.
      unfold logged. by destruct (stdout_error sv _).
Qed.

(** What [route_email] returns is a row of the table, read at the sender
    address of the metadata if there is one. *)
Lemma route_email_result_inv
    category ents intent sentiment summary md w destination acts :
  result (route_email sv category ents intent sentiment summary md w)
  = inr (destination, acts) →
  ∃ sender,
    (destination, acts) = Table.decision category sender sentiment
    ∧ (md !! py "sender_email" = Some sender
       ∨ (category ≠ py "Fraud Report" ∧ category ≠ py "Account Inquiry")).
Proof.
  destruct (md !! py "sender_email") as [sender|] eqn:Hs.
  - rewrite (route_email_with_sender _ _ _ _ _ _ sender) by done. cbn zeta.
    unfold logged. destruct (stdout_error sv _); [done|]. cbn.
    intros [= Heq]. exists sender. split; [done|by left].
  - rewrite route_email_no_sender by done. case_decide as Hc; [done|].
    cbn zeta. unfold logged. destruct (stdout_error sv _); [done|]. cbn.
    intros [= Heq]. exists (MStr []). split; [done|]. right.
    split; intros ->; apply Hc; auto.
Qed.

(** C7: the entities and the summary are inert: two calls that agree on the
    category, the intent, the sentiment and the metadata have the same
    outcome.  The intent is written in the log line and read by nothing
    else: of two calls that differ in it as well, the returned pairs are
    equal whenever both return, and the second returns the pair of the
    first whenever its own log line is written. *)
Theorem route_email_inert_inputs category sentiment md w
    ents1 intent1 summary1 ents2 intent2 summary2 :
  route_email sv category ents1 intent1 sentiment summary1 md w
  = route_email sv category ents2 intent1 sentiment summary2 md w
  ∧ (∀ r1 r2,
       result (route_email sv category ents1 intent1 sentiment summary1 md w)
       = inr r1 →
       result (route_email sv category ents2 intent2 sentiment summary2 md w)
       = inr r2 →
       r1 = r2)
  ∧ (∀ r1,
       result (route_email sv category ents1 intent1 sentiment summary1 md w)
       = inr r1 →
       stdout_error sv (RoutedTo r1.1 r1.2 category intent2 sentiment)
       = None →
       result (route_email sv category ents2 intent2 sentiment summary2 md w)
       = inr r1).
Proof.
  destruct (md !! py "sender_email") as [sender|] eqn:Hs.
  - rewrite !(route_email_with_sender _ _ _ _ _ _ sender) by done.
    split_and!; [done| |]; cbn zeta; unfold logged; intros r1.
    + intros r2. do 2 (destruct (stdout_error sv _); [done|]).
      cbn. congruence.
    + destruct (stdout_error sv _); [done|]. cbn. intros [= <-] Hl.
      by rewrite Hl.
  - rewrite !route_email_no_sender by done. split_and!; [done| |].
    + case_decide; [done|]. cbn zeta. unfold logged. intros r1 r2.
      do 2 (destruct (stdout_error sv _); [done|]). cbn. congruence.
    + case_decide; [done|]. cbn zeta. unfold logged. intros r1.
      destruct (stdout_error sv _); [done|]. cbn. intros [= <-] Hl.
      by rewrite Hl.
Qed.
End Routing.

Lemma route_email_table_witness :
  route_email out_of_service (py "Fraud Report") ∅ (py "Report a Problem")
    (py "Negative") (py "Card stolen.")
    {[ py "sender_email" := MStr (py "a@b.com") ]} tt
  = Outcome
      (inr (py "Fraud Department",
            {[ py "create_ticket" := Table.ticket "CRM" "High";
               py "send_acknowledgment" :=
                 Table.acknowledgment "FraudReportReceived"
                   (MStr (py "a@b.com")) ]}))
      [RoutedTo (py "Fraud Department")
         {[ py "create_ticket" := Table.ticket "CRM" "High";
            py "send_acknowledgment" :=
              Table.acknowledgment "FraudReportReceived"
                (MStr (py "a@b.com")) ]}
         (py "Fraud Report") (py "Report a Problem") (py "Negative")]
      tt.
Proof.
  apply (route_email_table out_of_service (py "Fraud Report") ∅
           (py "Report a Problem") (py "Negative") (py "Card stolen.")
           {[ py "sender_email" := MStr (py "a@b.com") ]}
           (MStr (py "a@b.com")) tt).
  reflexivity.
Defined.

(** On a strict UTF-8 output a category with a lone surrogate cannot be
    logged: the call raises although the metadata has a sender address. *)
Lemma route_email_unprintable_category :
  result (route_email strict_console lone_surrogate ∅ (py "Seek Help")
            (py "Neutral") (py "Hello.")
            {[ py "sender_email" := MStr (py "a@b.com") ]} tt)
  = inl (UnicodeEncodeError (py "surrogates not allowed"))
  ∧ ¬ (∀ (sv : services unit) category ents intent sentiment summary
         (md : metadata) sender,
         md !! py "sender_email" = Some sender →
         result (route_email sv category ents intent sentiment summary md tt)
         = inr (Table.decision category sender sentiment)).
Proof.
  split; [vm_compute; reflexivity|]. intros H.
  specialize (H strict_console lone_surrogate ∅ (py "Seek Help")
                (py "Neutral") (py "Hello.")
                {[ py "sender_email" := MStr (py "a@b.com") ]}
                (MStr (py "a@b.com")) eq_refl).
  vm_compute in H. discriminate.
Qed.

Lemma route_email_raises_without_sender :
  result (route_email out_of_service (py "Fraud Report") ∅
            (py "Report a Problem") (py "Negative") (py "Card stolen.") ∅ tt)
  = inl (KeyError (py "sender_email"))
  ∧ ¬ (∀ category ents intent sentiment summary (md : metadata),
         ∃ r, result (route_email out_of_service category ents intent
                        sentiment summary md tt) = inr r).
Proof.
  split; [reflexivity|]. intros H.
  destruct (H (py "Fraud Report") ∅ [] [] [] ∅) as [r Hr]. discriminate.
Qed.

Lemma route_email_returns_witness :
  result (route_email out_of_service (py "Account Inquiry") ∅ []
            (py "Neutral") [] ∅ tt)
  = inl (KeyError (py "sender_email"))
  ∧ result (route_email out_of_service (py "Complaint") ∅ [] (py "Negative")
              [] ∅ tt)
    = inr (Table.decision (py "Complaint") (MStr []) (py "Negative")).
Proof.
  split.
  - apply (proj1 (route_email_returns out_of_service (py "Account Inquiry")
                      ∅ [] (py "Neutral") [] ∅ tt)); [reflexivity|by right].
  - apply (proj2 (route_email_returns out_of_service (py "Complaint") ∅ []
                    (py "Negative") [] ∅ tt) (MStr [])).
    right. split_and!; [reflexivity|discriminate..].
Defined.

Lemma route_email_inert_inputs_witness :
  result (route_email strict_console (py "Complaint") ∅ (py "Seek Help")
            (py "Negative") [] ∅ tt)
  = inr (Table.decision (py "Complaint") (MStr []) (py "Negative"))
  ∧ result (route_email strict_console (py "Complaint")
              {[ py "Amount" := py "20" ]} (py "Report a Problem")
              (py "Negative") (py "Twice charged.") ∅ tt)
    = inr (Table.decision (py "Complaint") (MStr []) (py "Negative")).
Proof.
  assert (H : result (route_email strict_console (py "Complaint") ∅
                        (py "Seek Help") (py "Negative") [] ∅ tt)
              = inr (Table.decision (py "Complaint") (MStr [])
                       (py "Negative"))).
  { vm_compute. reflexivity. }
  split; [exact H|].
  apply (proj2 (proj2 (route_email_inert_inputs strict_console
                         (py "Complaint") (py "Negative") ∅ tt
                         ∅ (py "Seek Help") []
                         {[ py "Amount" := py "20" ]} (py "Report a Problem")
                         (py "Twice charged.")))
           _ H).
  vm_compute. reflexivity.
Defined.

(** Whether the call returns can depend on the intent: on a strict UTF-8
    output an intent with a lone surrogate makes the call raise where the
    same call with another intent returns. *)
Example route_email_intent_decides_return :
  result (route_email strict_console (py "Feedback") ∅ (py "Seek Help")
            (py "Neutral") [] ∅ tt)
  = inr (py "Product Development Department", ∅)
  ∧ result (route_email strict_console (py "Feedback") ∅ lone_surrogate
              (py "Neutral") [] ∅ tt)
    = inl (UnicodeEncodeError (py "surrogates not allowed")).
Proof. split; vm_compute; reflexivity. Qed.

(** The routing examples of the specification. *)
Example route_complaint_negative :
  ∃ destination acts,
    result (route_email out_of_service (py "Complaint") ∅ [] (py "Negative")
              [] ∅ tt) = inr (destination, acts)
    ∧ acts !! py "escalate" = Some (ABool true).
Proof. eexists _, _. split; [reflexivity|]. vm_compute. reflexivity. Qed.

Example route_complaint_positive :
  ∃ destination acts,
    result (route_email out_of_service (py "Complaint") ∅ [] (py "Positive")
              [] ∅ tt) = inr (destination, acts)
    ∧ acts !! py "escalate" = None.
Proof. eexists _, _. split; [reflexivity|]. vm_compute. reflexivity. Qed.

Example route_unknown_category :
  result (route_email out_of_service (py "Spam") ∅ [] (py "Neutral") [] ∅ tt)
  = inr (py "General Inquiry Department", ∅).
Proof. vm_compute. reflexivity. Qed.

(** * The two ends of a text *)
Lemma lstrip_app_space p s :
  Forall (λ c, isspace c = true) p → lstrip (p ++ s) = lstrip s.
Proof.
  induction 1 as [|c p Hc _ IH]; [done|]. cbn [app lstrip]. by rewrite Hc.
Qed.

Lemma lstrip_space p : Forall (λ c, isspace c = true) p → lstrip p = [].
Proof.
  intros Hp. rewrite <- (app_nil_r p). by rewrite lstrip_app_space.
Qed.

Lemma rstrip_app_space s q :
  Forall (λ c, isspace c = true) q → rstrip (s ++ q) = rstrip s.
Proof.
  intros Hq. unfold rstrip. rewrite reverse_app.
  by rewrite lstrip_app_space by (by apply Forall_reverse).
Qed.

Lemma strip_trim_of s : trim_of s (strip s).
Proof.
  destruct (lstrip_split s) as (p & Hs & Hp).
  destruct (rstrip_split (lstrip s)) as (q & Hl & Hq).
  exists p, q. split_and!; [|done..|apply strip_trimmed].
  unfold strip. by rewrite <- Hl.
Qed.

Lemma trim_of_strip s t : trim_of s t → t = strip s.
Proof.
  intros (p & q & -> & Hp & Hq & Hh & Hl). unfold strip.
  rewrite lstrip_app_space by done. destruct t as [|c r].
  - cbn [app]. by rewrite lstrip_space.
  - cbn [app lstrip]. rewrite (Hh c r eq_refl).
    change (c :: r ++ q) with ((c :: r) ++ q).
    rewrite rstrip_app_space by done. symmetry. by apply rstrip_id.
Qed.

(** * Entity lines *)
Lemma split1_cons c s :
  split1 Chr.COLON (c :: s)
  = if (c =? Chr.COLON)%N then [[]; s] else cons_word c (split1 Chr.COLON s).
Proof. reflexivity. Qed.

Lemma contains_cons c s :
  contains Chr.COLON (c :: s) = (Chr.COLON =? c)%N || contains Chr.COLON s.
Proof. reflexivity. Qed.

Lemma contains_false line :
  contains Chr.COLON line = false → Chr.COLON ∉ line.
Proof.
  induction line as [|c line IH]; [intros _; apply not_elem_of_nil|].
  rewrite contains_cons. intros [Hc Hl]%orb_false_elim.
  apply N.eqb_neq in Hc. rewrite elem_of_cons. intros [?|?]; [done|].
  by apply IH.
Qed.

Lemma split1_first_colon line :
  contains Chr.COLON line = true →
  ∃ key value, line = key ++ Chr.COLON :: value ∧ (Chr.COLON ∉ key)
               ∧ split1 Chr.COLON line = [key; value].
Proof.
  induction line as [|c line IH]; [done|].
  rewrite contains_cons, split1_cons, N.eqb_sym.
  destruct (N.eqb_spec c Chr.COLON) as [->|Hc].
  - intros _. exists [], line. split_and!; [done|apply not_elem_of_nil|done].
  - rewrite orb_false_l. intros Hl.
    destruct (IH Hl) as (key & value & -> & Hk & ->).
    exists (c :: key), value. split_and!; [done| |done].
    rewrite elem_of_cons. intros [?|?]; [congruence|done].
Qed.

Lemma first_colon_unique key value key' value' :
  key ++ Chr.COLON :: value = key' ++ Chr.COLON :: value' →
  Chr.COLON ∉ key → Chr.COLON ∉ key' → key = key' ∧ value = value'.
Proof.
  revert key'. induction key as [|c key IH]; intros [|c' key']; cbn [app].
  - by intros [= ->].
  - intros [= <- _] _ []. by left.
  - intros [= -> _] []. by left.
  - intros [= <- Heq] [??]%not_elem_of_cons [??]%not_elem_of_cons.
    destruct (IH key' Heq) as [-> ->]; done.
Qed.

Lemma binds_functional line k v k' v' :
  binds line k v → binds line k' v' → k = k' ∧ v = v'.
Proof.
  intros (key & value & -> & Hk & Hkk & Hvv)
    (key' & value' & Heq & Hk' & Hkk' & Hvv').
  destruct (first_colon_unique _ _ _ _ Heq) as [<- <-]; [done..|].
  apply trim_of_strip in Hkk, Hvv, Hkk', Hvv'. by subst.
Qed.

Lemma entities_put_spec d line :
  (∃ k v, binds line k v ∧ entities_put d line = <[k := v]> d)
  ∨ ((∀ k v, ¬ binds line k v) ∧ entities_put d line = d).
Proof.
  unfold entities_put. destruct (contains Chr.COLON line) eqn:Hc.
  - destruct (split1_first_colon line Hc) as (key & value & -> & Hk & ->).
    left. exists (strip key), (strip value). split; [|done].
    exists key, value. split_and!; [done..|apply strip_trim_of
                                           |apply strip_trim_of].
  - right. split; [|done]. intros k v (key & value & -> & _).
    apply contains_false in Hc. apply Hc. set_solver.
Qed.

Lemma last_binding_nil k v : ¬ last_binding [] k v.
Proof. intros (before & line & after & Heq & _). by destruct before. Qed.

Lemma last_binding_cons line lines k v :
  last_binding (line :: lines) k v
  ↔ last_binding lines k v ∨ (binds line k v ∧ unbound lines k).
Proof.
  split.
  - intros ([|l before] & line' & after & Heq & Hb & Hafter);
      cbn [app] in Heq; injection Heq as -> ->.
    + by right.
    + left. by exists before, line', after.
  - intros [(before & line' & after & -> & Hb & Hafter)|[Hb Hu]].
    + by exists (line :: before), line', after.
    + by exists [], line, lines.
Qed.

Lemma unbound_cons line lines k :
  unbound (line :: lines) k ↔ (∀ v, ¬ binds line k v) ∧ unbound lines k.
Proof.
  unfold unbound. split.
  - intros H. split; [intros v; apply H; by left|].
    intros l v' Hl. apply H. by right.
  - intros [H1 H2] l v' [->|Hl]%elem_of_cons; [apply H1|by apply H2].
Qed.

Lemma foldl_entities_put lines d k v :
  foldl entities_put d lines !! k = Some v
  ↔ last_binding lines k v ∨ (unbound lines k ∧ d !! k = Some v).
Proof.
  revert d. induction lines as [|line lines IH]; intros d; cbn [foldl].
  - split; [intros ?; right; split; [by intros ?? ?%elem_of_nil|done]|].
    intros [[]%last_binding_nil|[_ ?]]; done.
  - rewrite IH, last_binding_cons, unbound_cons.
    destruct (entities_put_spec d line) as [(k0 & v0 & Hb & ->)|[Hn ->]].
    + rewrite lookup_insert_Some. split.
      * intros [?|[Hu [[<- <-]|[Hne Hd]]]]; [by left; left|by left; right|].
        right. split_and!; [|done..]. intros v' Hb'.
        by destruct (binds_functional _ _ _ _ _ Hb Hb').
      * intros [[?|[Hb' Hu]]|[[Hnb Hu] Hd]]; [by left| |].
        -- destruct (binds_functional _ _ _ _ _ Hb Hb') as [<- <-].
           right. split; [done|]. by left.
        -- right. split; [done|]. right. split; [|done].
           intros <-. by apply (Hnb v0).
    + split.
      * intros [?|[Hu Hd]]; [by left; left|]. right. split_and!; [|done..].
        intros v'. apply Hn.
      * intros [[?|[Hb' _]]|[[_ Hu] Hd]]; [by left| |by right].
        by destruct (Hn k v).
Qed.

Lemma binds_trimmed line k v :
  binds line k v → trimmed k ∧ trimmed v ∧ (Chr.COLON ∉ k).
Proof.
  intros (key & value & _ & Hk & (p & q & -> & _ & _ & Hkt) & (_ & _ & _ & _ & _ & Hvt)).
  split_and!; [done..|]. intros Hc. apply Hk. set_solver.
Qed.

Lemma splitlines_cons c s :
  splitlines (c :: s)
  = if islinebreak c then
      [] :: splitlines
              match s with
              | c' :: s'' => if ((c =? 13) && (c' =? 10))%N then s'' else s
              | [] => s
              end
    else cons_word c (splitlines s).
Proof. reflexivity. Qed.

Lemma elem_of_cons_word c ws line :
  line ∈ cons_word c ws →
  (∃ w, line = c :: w ∧ (w ∈ ws ∨ w = [])) ∨ line ∈ ws.
Proof.
  destruct ws as [|w ws]; cbn.
  - intros ->%list_elem_of_singleton. left. exists []. auto.
  - intros [->|?]%elem_of_cons.
    + left. exists w. split; [done|]. left. by left.
    + right. by right.
Qed.

Lemma splitlines_elem s line c : line ∈ splitlines s → c ∈ line → c ∈ s.
Proof.
  remember (length s) as n eqn:Hn. revert s Hn line.
  induction (lt_wf n) as [n _ IH]. intros s -> line Hline Hc.
  destruct s as [|c0 s]; [by apply elem_of_nil in Hline|].
  rewrite splitlines_cons in Hline. destruct (islinebreak c0).
  - apply elem_of_cons in Hline as [->|Hline]; [by apply elem_of_nil in Hc|].
    right. destruct s as [|c' s'']; [by apply elem_of_nil in Hline|].
    destruct ((c0 =? 13) && (c' =? 10))%N.
    + right. eapply (IH (length s'')); [cbn; lia|done..].
    + eapply (IH (length (c' :: s''))); [cbn; lia|done..].
  - apply elem_of_cons_word in Hline as [(w & -> & Hw)|Hline].
    + apply elem_of_cons in Hc as [->|Hc]; [by left|]. right.
      destruct Hw as [Hw| ->]; [|by apply elem_of_nil in Hc].
      eapply (IH (length s)); [cbn; lia|done..].
    + right. eapply (IH (length s)); [cbn; lia|done..].
Qed.

Lemma contains_elem line : contains Chr.COLON line = true → Chr.COLON ∈ line.
Proof.
  unfold contains. rewrite existsb_exists.
  intros (c & Hin & Hc). apply N.eqb_eq in Hc. subst c.
  by apply list_elem_of_In.
Qed.

Lemma foldl_entities_put_no_colon d lines :
  (∀ line, line ∈ lines → Chr.COLON ∉ line) →
  foldl entities_put d lines = d.
Proof.
  revert d. induction lines as [|line lines IH]; intros d Hl; [done|].
  cbn [foldl]. rewrite IH by (intros l ?; apply Hl; by right).
  unfold entities_put. destruct (contains Chr.COLON line) eqn:Hc; [|done].
  apply contains_elem in Hc. destruct (Hl line); [by left|done].
Qed.

Lemma similarity_counts_empty expected : similarity_counts ∅ expected = (0, 0).
Proof.
  rewrite similarity_counts_sizes. f_equal; apply map_size_empty_iff, map_empty;
    intros k; apply map_lookup_filter_None; right; intros v _.
  - unfold agrees. cbn. by rewrite lookup_empty.
  - unfold present. cbn. rewrite lookup_empty. by intros [??].
Qed.

Lemma entities_default_entries :
  map_Forall (λ k v, k ∈ EMAIL_ENTITIES ∧ v = py "N/A") entities_default.
Proof. apply (bool_decide_unpack _). vm_compute. reflexivity. Qed.

Lemma trimmed_strip_fix s : strip s = s → trimmed s.
Proof. intros <-. apply strip_trimmed. Qed.

(** * The analysis operations *)
Section Analysis.
Context {World : Type} (sv : services World).
Implicit Types (w : World) (content : str).

(** A request to the service under [try], with a handler that prints the
    exception and returns the default. *)
Lemma guarded_request {A} prompt (body : str → M A) (parse : str → A)
    (default : A) (line : exn → event) w :
  (∀ response w', body response w' = Outcome (inr (parse response)) [] w') →
  try_except (bind (call_predict sv prompt) body)
             (λ e, bind (print sv (line e)) (λ _, ret default)) w
  = let r := predict sv prompt w in
    match r.1 with
    | inl e => logged sv (line e) default r.2
    | inr response => Outcome (inr (parse response)) [] r.2
    end.
Proof.
  intros Hbody. unfold try_except, bind at 1, call_predict.
  destruct (predict sv prompt w) as [[e|response] w']; cbn.
  - rewrite bind_print_ret. unfold logged.
    by destruct (stdout_error sv (line e)).
  - by rewrite Hbody.
Qed.

Lemma classify_email_unfold content w :
  classify_email sv content w
  = let r := predict sv (classify_prompt content) w in
    match r.1 with
    | inl e => logged sv (ErrorClassifying e) (py "General Inquiry") r.2
    | inr response => Outcome (inr (strip response)) [] r.2
    end.
Proof. by apply (guarded_request _ _ strip). Qed.

Lemma recognize_intent_unfold content w :
  recognize_intent sv content w
  = let r := predict sv (intent_prompt content) w in
    match r.1 with
    | inl e => logged sv (ErrorRecognizing e) (py "General Inquiry") r.2
    | inr response => Outcome (inr (strip response)) [] r.2
    end.
Proof. by apply (guarded_request _ _ strip). Qed.

Lemma analyze_sentiment_unfold content w :
  analyze_sentiment sv content w
  = let r := predict sv (sentiment_prompt content) w in
    match r.1 with
    | inl e => logged sv (ErrorAnalyzing e) (py "Neutral") r.2
    | inr response => Outcome (inr (strip response)) [] r.2
    end.
Proof. by apply (guarded_request _ _ strip). Qed.

Lemma summarize_email_unfold content w :
  summarize_email sv content w
  = let r := predict sv (summary_prompt content) w in
    match r.1 with
    | inl e => logged sv (ErrorSummarizing e) (py "Summary not available.") r.2
    | inr response => Outcome (inr (strip response)) [] r.2
    end.
Proof. by apply (guarded_request _ _ strip). Qed.

(** The unpacking in the loop never fails: the loop is [entities_put],
    folded over the lines. *)
Lemma entities_step_put d line w :
  entities_step d line w = Outcome (inr (entities_put d line)) [] w.
Proof.
  unfold entities_step, entities_put.
  destruct (contains Chr.COLON line) eqn:Hc; [|done].
  by destruct (split1_first_colon line Hc) as (key & value & _ & _ & ->).
Qed.

Lemma entities_loop_foldl d lines w :
  entities_loop d lines w = Outcome (inr (foldl entities_put d lines)) [] w.
Proof.
  revert d. induction lines as [|line lines IH]; intros d; [done|].
  cbn [entities_loop foldl]. unfold bind.
  by rewrite entities_step_put, IH.
Qed.

Lemma extract_entities_unfold content w :
  extract_entities sv content w
  = let r := predict sv (entities_prompt content) w in
    match r.1 with
    | inl e => logged sv (ErrorExtracting e) entities_default r.2
    | inr response =>
        Outcome (inr (foldl entities_put ∅ (splitlines response))) [] r.2
    end.
Proof.
  apply (guarded_request _ _
           (λ response, foldl entities_put ∅ (splitlines response))).
  intros response w'. apply entities_loop_foldl.
Qed.

(** An operation whose error line, if any, is written. *)
Lemma accepted_request {A} (r : (exn + str) * World) (parse : str → A)
    (default : A) (line : exn → event) :
  (∀ ev, ev ∈ error_line line r.1 → stdout_error sv ev = None) →
  match r.1 with
  | inl e => logged sv (line e) default r.2
  | inr response => Outcome (inr (parse response)) [] r.2
  end
  = Outcome (inr (or_default default parse r.1)) (error_line line r.1) r.2.
Proof.
  destruct r as [[e|response] w']; cbn; [|done]. intros H.
  unfold logged. rewrite H; [done|]. by left.
Qed.

Lemma analyze_email_accepted content w :
  let r1 := predict sv (classify_prompt content) w in
  let r2 := predict sv (entities_prompt content) r1.2 in
  let r3 := predict sv (intent_prompt content) r2.2 in
  let r4 := predict sv (sentiment_prompt content) r3.2 in
  let r5 := predict sv (summary_prompt content) r4.2 in
  let lines :=
    error_line ErrorClassifying r1.1 ++ error_line ErrorExtracting r2.1
    ++ error_line ErrorRecognizing r3.1 ++ error_line ErrorAnalyzing r4.1
    ++ error_line ErrorSummarizing r5.1 in
  (∀ ev, ev ∈ lines → stdout_error sv ev = None) →
  analyze_email sv content w
  = Outcome
      (inr {| a_category := or_default (py "General Inquiry") strip r1.1;
              a_entities :=
                or_default entities_default
                  (λ response, foldl entities_put ∅ (splitlines response))
                  r2.1;
              a_intent := or_default (py "General Inquiry") strip r3.1;
              a_sentiment := or_default (py "Neutral") strip r4.1;
              a_summary :=
                or_default (py "Summary not available.") strip r5.1 |})
      lines r5.2.
Proof.
  intros r1 r2 r3 r4 r5 lines Hlines. unfold analyze_email, bind.
  rewrite classify_email_unfold. cbn zeta. fold r1.
  rewrite accepted_request
    by (intros ev ?; apply Hlines; unfold lines; set_solver).
  cbn [result printed world].
  rewrite extract_entities_unfold. cbn zeta. fold r2.
  rewrite accepted_request
    by (intros ev ?; apply Hlines; unfold lines; set_solver).
  cbn [result printed world].
  rewrite recognize_intent_unfold. cbn zeta. fold r3.
  rewrite accepted_request
    by (intros ev ?; apply Hlines; unfold lines; set_solver).
  cbn [result printed world].
  rewrite analyze_sentiment_unfold. cbn zeta. fold r4.
  rewrite accepted_request
    by (intros ev ?; apply Hlines; unfold lines; set_solver).
  cbn [result printed world].
  rewrite summarize_email_unfold. cbn zeta. fold r5.
  rewrite accepted_request
    by (intros ev ?; apply Hlines; unfold lines; set_solver).
  unfold ret. cbn [result printed world].
  unfold lines. by rewrite ?app_nil_r, <- ?app_assoc.
Qed.

(** C2 (amended): when the call to the service raises, each of the five
    operations prints the exception and returns its default whenever the
    line is written: ["General Inquiry"] for [classify_email] and
    [recognize_intent] (a category, not an intent), ["Neutral"] for
    [analyze_sentiment], the mapping of the 8 entity kinds to ["N/A"] for
    [extract_entities] and ["Summary not available."] for
    [summarize_email]; when the line is not written, the exception of
    [print] escapes the operation.  When every error line of the five
    requests of [analyze_email] is written, all five requests are made and
    each field is the default or the parsed answer according to the outcome
    of its own request only. *)
Theorem analysis_failure_defaults content w :
  (∀ e w', predict sv (classify_prompt content) w = (inl e, w') →
     classify_email sv content w
     = match stdout_error sv (ErrorClassifying e) with
       | None => Outcome (inr (py "General Inquiry")) [ErrorClassifying e] w'
       | Some e' => Outcome (inl e') [] w'
       end)
  ∧ (∀ e w', predict sv (intent_prompt content) w = (inl e, w') →
     recognize_intent sv content w
     = match stdout_error sv (ErrorRecognizing e) with
       | None => Outcome (inr (py "General Inquiry")) [ErrorRecognizing e] w'
       | Some e' => Outcome (inl e') [] w'
       end)
  ∧ (py "General Inquiry" ∈ EMAIL_CATEGORIES)
  ∧ (py "General Inquiry" ∉ EMAIL_INTENTS)
  ∧ (∀ e w', predict sv (sentiment_prompt content) w = (inl e, w') →
     analyze_sentiment sv content w
     = match stdout_error sv (ErrorAnalyzing e) with
       | None => Outcome (inr (py "Neutral")) [ErrorAnalyzing e] w'
       | Some e' => Outcome (inl e') [] w'
       end)
  ∧ (∀ e w', predict sv (entities_prompt content) w = (inl e, w') →
     extract_entities sv content w
     = match stdout_error sv (ErrorExtracting e) with
       | None => Outcome (inr entities_default) [ErrorExtracting e] w'
       | Some e' => Outcome (inl e') [] w'
       end)
  ∧ entities_default
    = list_to_map ((λ entity, (entity, py "N/A")) <$> EMAIL_ENTITIES)
  ∧ length EMAIL_ENTITIES = 8 ∧ NoDup EMAIL_ENTITIES
  ∧ (∀ e w', predict sv (summary_prompt content) w = (inl e, w') →
     summarize_email sv content w
     = match stdout_error sv (ErrorSummarizing e) with
       | None =>
           Outcome (inr (py "Summary not available.")) [ErrorSummarizing e] w'
       | Some e' => Outcome (inl e') [] w'
       end)
  ∧ (let r1 := predict sv (classify_prompt content) w in
     let r2 := predict sv (entities_prompt content) r1.2 in
     let r3 := predict sv (intent_prompt content) r2.2 in
     let r4 := predict sv (sentiment_prompt content) r3.2 in
     let r5 := predict sv (summary_prompt content) r4.2 in
     let lines :=
       error_line ErrorClassifying r1.1 ++ error_line ErrorExtracting r2.1
       ++ error_line ErrorRecognizing r3.1 ++ error_line ErrorAnalyzing r4.1
       ++ error_line ErrorSummarizing r5.1 in
     (∀ ev, ev ∈ lines → stdout_error sv ev = None) →
     analyze_email sv content w
     = Outcome
         (inr {| a_category := or_default (py "General Inquiry") strip r1.1;
                 a_entities :=
                   or_default entities_default
                     (λ response, foldl entities_put ∅ (splitlines response))
                     r2.1;
                 a_intent := or_default (py "General Inquiry") strip r3.1;
                 a_sentiment := or_default (py "Neutral") strip r4.1;
                 a_summary :=
                   or_default (py "Summary not available.") strip r5.1 |})
         lines r5.2).
Proof.
  split_and!.
  - intros e w' H. rewrite classify_email_unfold, H. cbn. unfold logged.
    by destruct (stdout_error sv _).
  - intros e w' H. rewrite recognize_intent_unfold, H. cbn. unfold logged.
    by destruct (stdout_error sv _).
  - apply (bool_decide_unpack _); vm_compute; reflexivity.
  - apply (bool_decide_unpack _); vm_compute; reflexivity.
  - intros e w' H. rewrite analyze_sentiment_unfold, H. cbn. unfold logged.
    by destruct (stdout_error sv _).
  - intros e w' H. rewrite extract_entities_unfold, H. cbn. unfold logged.
    by destruct (stdout_error sv _).
  - vm_compute; reflexivity.
  - done.
  - apply (bool_decide_unpack _); vm_compute; reflexivity.
  - intros e w' H. rewrite summarize_email_unfold, H. cbn. unfold logged.
    by destruct (stdout_error sv _).
  - apply analyze_email_accepted.
Qed.

(** C3: on a response of the service, [extract_entities] returns, without
    printing anything, the mapping in which [k] is bound to [v] exactly
    when some line of the response binds [k] to [v] (the text before and
    the text after its first colon, each without the whitespace at its two
    ends) and no later line binds [k]; lines without a colon bind nothing
    and no key is filtered out.  The documented response yields its two
    entries, whitespace is removed at both ends of a key and of a value,
    the later of two lines with the same key wins, and a key outside the 8
    entity kinds is kept. *)
Theorem extract_entities_parses content w response w' :
  predict sv (entities_prompt content) w = (inr response, w') →
  ∃ d,
    extract_entities sv content w = Outcome (inr d) [] w'
    ∧ (∀ k v, d !! k = Some v ↔ last_binding (splitlines response) k v)
    ∧ (response = example_response →
       d = {[ py "Account Number" := py "123";
              py "Date" := py "2024-01-01" ]})
    ∧ (response = padded_response →
       d = {[ py "Customer Name" := py "John Smith";
              py "Amount" := py "20" ]})
    ∧ (response = py "Mood: calm" →
       d = {[ py "Mood" := py "calm" ]} ∧ (py "Mood" ∉ EMAIL_ENTITIES)).
Proof.
  intros H. exists (foldl entities_put ∅ (splitlines response)).
  split_and!.
  - by rewrite extract_entities_unfold, H.
  - intros k v. rewrite foldl_entities_put, lookup_empty. split; [|auto].
    by intros [?|[_ ?]].
  - intros ->. vm_compute; reflexivity.
  - intros ->. vm_compute; reflexivity.
  - intros ->. split; [vm_compute; reflexivity
                      |apply (bool_decide_unpack _); vm_compute; reflexivity].
Qed.
End Analysis.

Lemma analysis_failure_defaults_witness :
  classify_email out_of_service (py "Hello") tt
  = Outcome (inr (py "General Inquiry"))
      [ErrorClassifying (ExternalError (py "service unavailable"))] tt
  ∧ extract_entities out_of_service (py "Hello") tt
    = Outcome (inr entities_default)
        [ErrorExtracting (ExternalError (py "service unavailable"))] tt
  ∧ ∃ a, result (analyze_email out_of_service (py "Hello") tt) = inr a
         ∧ a_intent a = py "General Inquiry".
Proof.
  pose proof (analysis_failure_defaults out_of_service (py "Hello") tt)
    as (Hc & _ & _ & _ & _ & He & _ & _ & _ & _ & Ha).
  split_and!; [apply Hc; reflexivity | apply He; reflexivity|].
  eexists. rewrite Ha by reflexivity. split; reflexivity.
Defined.

(** On a strict UTF-8 output a failure of the service whose message holds a
    lone surrogate is not absorbed: the handler of the operation raises. *)
Lemma analysis_failure_escapes :
  predict strict_console (classify_prompt (py "Hello")) tt
  = (inl (ExternalError lone_surrogate), tt)
  ∧ result (classify_email strict_console (py "Hello") tt)
    = inl (UnicodeEncodeError (py "surrogates not allowed"))
  ∧ result (analyze_email strict_console (py "Hello") tt)
    = inl (UnicodeEncodeError (py "surrogates not allowed"))
  ∧ ¬ (∀ (sv : services unit) content e w',
         predict sv (classify_prompt content) tt = (inl e, w') →
         result (classify_email sv content tt) = inr (py "General Inquiry")).
Proof.
  split_and!; [reflexivity|vm_compute; reflexivity..|]. intros H.
  specialize (H strict_console (py "Hello") _ _ eq_refl).
  vm_compute in H. discriminate.
Qed.

Lemma extract_entities_parses_witness :
  (∃ d, extract_entities (canned example_response) (py "Hello") tt
        = Outcome (inr d) [] tt
        ∧ d = {[ py "Account Number" := py "123";
                 py "Date" := py "2024-01-01" ]})
  ∧ (∃ d, extract_entities (canned padded_response) (py "Hello") tt
          = Outcome (inr d) [] tt
          ∧ d = {[ py "Customer Name" := py "John Smith";
                   py "Amount" := py "20" ]}).
Proof.
  split.
  - destruct (extract_entities_parses (canned example_response) (py "Hello")
                tt example_response tt eq_refl) as (d & Hd & _ & Hex & _).
    exists d. split; [exact Hd | exact (Hex eq_refl)].
  - destruct (extract_entities_parses (canned padded_response) (py "Hello")
                tt padded_response tt eq_refl) as (d & Hd & _ & _ & Hex & _).
    exists d. split; [exact Hd | exact (Hex eq_refl)].
Defined.

(** The line [" Customer Name :  John Smith  "] binds the key and the value
    without the whitespace at their ends, and nothing else. *)
Example binds_padded_line k v :
  binds (py " Customer Name :  John Smith  ") k v
  ↔ k = py "Customer Name" ∧ v = py "John Smith".
Proof.
  assert (Hb : binds (py " Customer Name :  John Smith  ")
                 (py "Customer Name") (py "John Smith")).
  { exists (py " Customer Name "), (py "  John Smith  ").
    split_and!; [reflexivity|apply (bool_decide_unpack _); vm_compute; reflexivity| |].
    - exists (py " "), (py " "). split_and!; [reflexivity| | |].
      + repeat constructor.
      + repeat constructor.
      + apply trimmed_strip_fix. vm_compute. reflexivity.
    - exists (py "  "), (py "  "). split_and!; [reflexivity| | |].
      + repeat constructor.
      + repeat constructor.
      + apply trimmed_strip_fix. vm_compute. reflexivity. }
  split; [intros Hb'; by destruct (binds_functional _ _ _ _ _ Hb Hb')|].
  by intros [-> ->].
Qed.

Section EntitiesMore.
Context {World : Type} (sv : services World).
Implicit Types (w : World) (content : str).

(** X9: whatever the service does, a mapping that [extract_entities]
    returns has keys and values that neither start nor end with whitespace,
    and keys without a colon. *)
Theorem extract_entities_trimmed content w d :
  result (extract_entities sv content w) = inr d →
  map_Forall (λ k v, trimmed k ∧ trimmed v ∧ (Chr.COLON ∉ k)) d.
Proof.
  rewrite extract_entities_unfold. cbn zeta.
  destruct (predict sv (entities_prompt content) w) as [[e|response] w'];
    cbn [fst snd].
  - unfold logged. destruct (stdout_error sv _); [done|]. cbn.
    intros [= <-] k v [Hk ->]%entities_default_entries.
    assert (Hall : Forall (λ k, strip k = k ∧ (Chr.COLON ∉ k)) EMAIL_ENTITIES).
    { unfold EMAIL_ENTITIES. repeat constructor; try (vm_compute; reflexivity).
      all: apply (bool_decide_unpack _); vm_compute; reflexivity. }
    rewrite Forall_forall in Hall. destruct (Hall k Hk) as [Hs Hc].
    split_and!; [by apply trimmed_strip_fix| |done].
    apply trimmed_strip_fix. vm_compute. reflexivity.
  - cbn. intros [= <-] k v Hd.
    apply foldl_entities_put in Hd as [Hb|[_ Hd]].
    + destruct Hb as (_ & line & _ & _ & Hb & _). by eapply binds_trimmed.
    + by rewrite lookup_empty in Hd.
Qed.

Lemma guarded_label_trimmed (r : (exn + str) * World) line default label :
  trimmed default →
  result match r.1 with
         | inl e => logged sv (line e) default r.2
         | inr response => Outcome (inr (strip response)) [] r.2
         end = inr label →
  trimmed label.
Proof.
  intros Hd. destruct r as [[e|response] w']; cbn [fst snd].
  - unfold logged. destruct (stdout_error sv _); [done|]. cbn. by intros [= <-].
  - cbn. intros [= <-]. apply strip_trimmed.
Qed.

(** X8: whatever the service does, a category, an intent, a sentiment or a
    summary that its operation returns has no whitespace at either end. *)
Theorem analysis_labels_trimmed content w label :
  result (classify_email sv content w) = inr label
  ∨ result (recognize_intent sv content w) = inr label
  ∨ result (analyze_sentiment sv content w) = inr label
  ∨ result (summarize_email sv content w) = inr label →
  trimmed label.
Proof.
  rewrite classify_email_unfold, recognize_intent_unfold,
    analyze_sentiment_unfold, summarize_email_unfold. cbn zeta.
  intros [H|[H|[H|H]]]; eapply guarded_label_trimmed in H; try done;
    apply trimmed_strip_fix; vm_compute; reflexivity.
Qed.

(** X10: a response without any colon yields the empty mapping, not the
    mapping of the defaults, and the empty mapping scores 0 against every
    expectation. *)
Theorem extract_entities_no_colon content w response w' :
  predict sv (entities_prompt content) w = (inr response, w') →
  Chr.COLON ∉ response →
  extract_entities sv content w = Outcome (inr ∅) [] w'
  ∧ ∀ expected, calculate_similarity_score ∅ expected = 0%Q.
Proof.
  intros Hp Hc. split.
  - rewrite extract_entities_unfold, Hp. cbn.
    rewrite foldl_entities_put_no_colon; [done|].
    intros line Hline Hin. apply Hc. by eapply splitlines_elem.
  - intros expected. unfold calculate_similarity_score.
    by rewrite similarity_counts_empty.
Qed.
End EntitiesMore.

Lemma extract_entities_no_colon_witness :
  extract_entities (canned (py "I cannot help with that.")) (py "Hello") tt
  = Outcome (inr ∅) [] tt
  ∧ ∀ expected, calculate_similarity_score ∅ expected = 0%Q.
Proof.
  apply (extract_entities_no_colon (canned (py "I cannot help with that."))
           (py "Hello") tt (py "I cannot help with that.") tt).
  - reflexivity.
  - apply (bool_decide_unpack _). vm_compute. reflexivity.
Defined.


Lemma extract_entities_trimmed_witness :
  map_Forall (λ k v, trimmed k ∧ trimmed v ∧ (Chr.COLON ∉ k))
    ({[ py "Customer Name" := py "John Smith"; py "Amount" := py "20" ]}
     : entities).
Proof.
  apply (extract_entities_trimmed (canned padded_response) (py "Hello") tt).
  vm_compute. reflexivity.
Defined.

Lemma analysis_labels_trimmed_witness : trimmed (py "Complaint").
Proof.
  apply (analysis_labels_trimmed (canned (py "  Complaint ")) (py "Hello") tt).
  left. vm_compute. reflexivity.
Defined.





Section ParserMore.
Context {World : Type} (sv : services World).
Implicit Types (w : World) (email_bytes : bytes).

(** The loop over the parts builds the list of [attachments_of] when every
    [get_filename()] returns. *)
Lemma attachments_loop_returns acc parts w :
  Forall (λ part, ∃ name, get_filename part = inr name) parts →
  attachments_loop acc parts w
  = Outcome
      (inr (acc ++ flat_map (λ part, match get_filename part with
                                     | inr (Some (c :: f)) => [c :: f]
                                     | _ => []
                                     end) parts)) [] w.
Proof.
  intros Hparts. revert acc.
  induction Hparts as [|part parts [name Hname] _ IH]; intros acc.
  - cbn. by rewrite app_nil_r.
  - cbn [attachments_loop flat_map]. rewrite Hname.
    destruct name as [[|c f]|]; rewrite IH; cbn [app]; try done.
    by rewrite <- app_assoc.
Qed.

Lemma attachments_loop_silent acc parts w :
  printed (attachments_loop acc parts w) = []
  ∧ world (attachments_loop acc parts w) = w.
Proof.
  revert acc. induction parts as [|part parts IH]; intros acc; [done|].
  cbn [attachments_loop].
  destruct (get_filename part) as [e|[[|c f]|]]; [done|apply IH..].
Qed.

(** [extract_email_metadata] prints nothing and leaves the service alone. *)
Lemma extract_email_metadata_silent email_bytes w :
  printed (extract_email_metadata sv email_bytes w) = []
  ∧ world (extract_email_metadata sv email_bytes w) = w.
Proof.
  unfold extract_email_metadata, get_header, bind.
  destruct (parsebytes sv email_bytes) as [e|m]; [split; reflexivity|].
  cbn [ret raise result printed world app].
  destruct (msg_get m (py "From")) as [e|from]; [split; reflexivity|].
  cbn [ret raise result printed world app].
  destruct (msg_get m (py "Subject")) as [e|subject]; [split; reflexivity|].
  cbn [ret raise result printed world app].
  destruct (msg_get m (py "Date")) as [e|date]; [split; reflexivity|].
  cbn [ret raise result printed world app].
  destruct (is_multipart m); [|done].
  destruct (attachments_loop_silent [] (walk m) w) as [Hp Hw].
  destruct (attachments_loop [] (walk m) w) as [[e|l] out w'];
    cbn in *; by subst.
Qed.

(** What [extract_email_metadata] returns was read from a parsed message,
    and its sender address is the [From] header of that message. *)
Lemma extract_email_metadata_sender email_bytes w md :
  result (extract_email_metadata sv email_bytes w) = inr md →
  ∃ email_message sender,
    parsebytes sv email_bytes = inr email_message
    ∧ msg_get email_message (py "From") = inr sender
    ∧ md !! py "sender_email" = Some (MStr (str_of sender)).
Proof.
  unfold extract_email_metadata, get_header, bind.
  destruct (parsebytes sv email_bytes) as [e|m]; [intros [=]|].
  cbn [ret raise result printed world app].
  destruct (msg_get m (py "From")) as [e|from] eqn:Hfrom; [intros [=]|].
  cbn [ret raise result printed world app].
  destruct (msg_get m (py "Subject")) as [e|subject]; [intros [=]|].
  cbn [ret raise result printed world app].
  destruct (msg_get m (py "Date")) as [e|date]; [intros [=]|].
  cbn [ret raise result printed world app].
  intros H. exists m, from. split_and!; [done..|].
  assert (∃ l, md = <[py "attachments" := MList l]>
                 (<[py "timestamp" := MStr (str_of date)]>
                  (<[py "subject" := MStr (str_of subject)]>
                   (<[py "sender_email" := MStr (str_of from)]> ∅))))
    as [l ->].
  { destruct (is_multipart m); cbn in H.
    - destruct (attachments_loop [] (walk m) w) as [[e|l] out w'];
        cbn in H; [done|]. injection H as <-. by eexists.
    - injection H as <-. by eexists. }
  do 3 (rewrite lookup_insert_ne by (vm_compute; discriminate)).
  apply lookup_insert_eq.
Qed.

(** A header that cannot be read makes the extraction raise. *)
Lemma extract_email_metadata_unreadable_from email_bytes email_message w e :
  parsebytes sv email_bytes = inr email_message →
  msg_get email_message (py "From") = inl e →
  extract_email_metadata sv email_bytes w = Outcome (inl e) [] w.
Proof.
  intros Hp Hf. unfold extract_email_metadata, get_header, bind.
  rewrite Hp. cbn [ret]. by rewrite Hf.
Qed.

(** X1: on a parsed message whose three headers and whose file names can be
    read, the metadata has exactly its four keys, whatever headers are
    there; a missing header gives the string ["None"]. *)
Theorem extract_email_metadata_keys
    email_bytes email_message w sender subject timestamp :
  parsebytes sv email_bytes = inr email_message →
  msg_get email_message (py "From") = inr sender →
  msg_get email_message (py "Subject") = inr subject →
  msg_get email_message (py "Date") = inr timestamp →
  (is_multipart email_message = true →
   Forall (λ part, ∃ name, get_filename part = inr name)
     (walk email_message)) →
  ∃ md,
    extract_email_metadata sv email_bytes w = Outcome (inr md) [] w
    ∧ dom md = {[ py "sender_email"; py "subject"; py "timestamp";
                  py "attachments" ]}
    ∧ md !! py "sender_email" = Some (MStr (default (py "None") sender))
    ∧ md !! py "subject" = Some (MStr (default (py "None") subject))
    ∧ md !! py "timestamp" = Some (MStr (default (py "None") timestamp))
    ∧ md !! py "attachments" = Some (MList (attachments_of email_message)).
Proof.
  intros Hp Hfrom Hsubject Hdate Hnames.
  exists (<[py "attachments" := MList (attachments_of email_message)]>
          (<[py "timestamp" := MStr (str_of timestamp)]>
           (<[py "subject" := MStr (str_of subject)]>
            (<[py "sender_email" := MStr (str_of sender)]> ∅)))).
  split_and!.
  - unfold extract_email_metadata, get_header, bind, attachments_of.
    rewrite Hp. cbn [ret raise result printed world app].
    rewrite Hfrom. cbn [ret raise result printed world app].
    rewrite Hsubject. cbn [ret raise result printed world app].
    rewrite Hdate. cbn [ret raise result printed world app].
    destruct (is_multipart email_message); [|done].
    by rewrite attachments_loop_returns by auto.
  - rewrite !dom_insert_L, dom_empty_L.
    apply (bool_decide_unpack _). vm_compute. reflexivity.
  - do 3 (rewrite lookup_insert_ne by (vm_compute; discriminate)).
    apply lookup_insert_eq.
  - do 2 (rewrite lookup_insert_ne by (vm_compute; discriminate)).
    apply lookup_insert_eq.
  - do 1 (rewrite lookup_insert_ne by (vm_compute; discriminate)).
    apply lookup_insert_eq.
  - apply lookup_insert_eq.
Qed.
End ParserMore.



Lemma extract_email_metadata_keys_witness :
  ∃ md,
    extract_email_metadata nested_source [] tt = Outcome (inr md) [] tt
    ∧ md !! py "sender_email" = Some (MStr (py "None"))
    ∧ md !! py "attachments" = Some (MList [py "invoice.pdf"]).
Proof.
  destruct (extract_email_metadata_keys nested_source [] nested_attachment tt
              None None None eq_refl eq_refl eq_refl eq_refl)
    as (md & Hmd & _ & Hs & _ & _ & Ha).
  { intros _. repeat constructor; by eexists. }
  exists md. split_and!; [exact Hmd|exact Hs|exact Ha].
Defined.

(** * The pipeline controller *)
Section Controller.
Context {World : Type} (sv : services World).
Implicit Types (w : World) (email_bytes : bytes) (filename : str).

Lemma bind_print_written {B} (ev : event) (k : unit → M B) w :
  stdout_error sv ev = None →
  bind (print sv ev) k w
  = Outcome (result (k tt w)) (ev :: printed (k tt w)) (world (k tt w)).
Proof. intros H. by rewrite bind_print, H. Qed.

Lemma extract_email_metadata_outcome email_bytes w md :
  result (extract_email_metadata sv email_bytes w) = inr md →
  extract_email_metadata sv email_bytes w = Outcome (inr md) [] w.
Proof.
  destruct (extract_email_metadata_silent sv email_bytes w) as [Hp Hw].
  destruct (extract_email_metadata sv email_bytes w) as [r out w'].
  cbn in *. by intros ->; subst.
Qed.

Lemma process_email_caught email_bytes w :
  process_email sv email_bytes w
  = catch_and_print sv ErrorProcessing (process_email_try sv email_bytes w).
Proof. apply try_except_print. Qed.

Lemma catch_and_print_returns line (r : outcome unit) :
  (∀ e, result r = inl e → stdout_error sv (line e) = None) →
  result (catch_and_print sv line r) = inr tt.
Proof.
  unfold catch_and_print. destruct (result r) as [e|[]] eqn:Hr; [|done].
  intros H. by rewrite (H e).
Qed.

Lemma catch_and_print_raises line (r : outcome unit) e :
  result (catch_and_print sv line r) = inl e →
  ∃ ev, stdout_error sv ev = Some e.
Proof.
  unfold catch_and_print. destruct (result r) as [e'|[]] eqn:Hr.
  - destruct (stdout_error sv (line e')) as [e''|] eqn:He; [|done].
    cbn. intros [= <-]. eauto.
  - by rewrite Hr.
Qed.

(** The only exceptions that leave [process_email] are those of [print]. *)
Lemma process_email_raises email_bytes w e :
  result (process_email sv email_bytes w) = inl e →
  ∃ ev, stdout_error sv ev = Some e.
Proof. rewrite process_email_caught. apply catch_and_print_raises. Qed.

Lemma process_file_unfold filename w :
  process_file sv filename w
  = if endswith filename (py ".eml") then
      catch_and_print sv (ErrorReadingOrProcessing filename)
        match read_file sv filename with
        | inl e => Outcome (inl e) [] w
        | inr email_bytes =>
            match stdout_error sv (ProcessingEmail filename) with
            | Some e => Outcome (inl e) [] w
            | None =>
                let r := process_email sv email_bytes w in
                Outcome (result r) (ProcessingEmail filename :: printed r)
                  (world r)
            end
        end
    else Outcome (inr tt) [] w.
Proof.
  unfold process_file. destruct (endswith _ _); [|done].
  rewrite try_except_print. f_equal.
  destruct (read_file sv filename) as [e|email_bytes]; [done|].
  rewrite (bind_silent _ _ w email_bytes) by done. apply bind_print.
Qed.

Lemma process_file_written filename w :
  endswith filename (py ".eml") = true →
  loop_lines_written sv filename →
  process_file sv filename w
  = match read_file sv filename with
    | inl e => Outcome (inr tt) [ErrorReadingOrProcessing filename e] w
    | inr email_bytes =>
        let r := process_email sv email_bytes w in
        Outcome (inr tt)
          (ProcessingEmail filename :: printed r
           ++ match result r with
              | inl e => [ErrorReadingOrProcessing filename e]
              | inr _ => []
              end)
          (world r)
    end.
Proof.
  intros Hs [Hp He]. rewrite process_file_unfold, Hs, Hp.
  unfold catch_and_print.
  destruct (read_file sv filename) as [e|email_bytes] eqn:Hr.
  - cbn. rewrite He by (by left). done.
  - cbn zeta. cbn [result printed world].
    destruct (result (process_email sv email_bytes w)) as [e|[]] eqn:Hres.
    + apply process_email_raises in Hres as Hev.
      rewrite He by (by right). done.
    + by rewrite app_nil_r.
Qed.

Lemma process_file_returns filename w :
  (endswith filename (py ".eml") = true → loop_lines_written sv filename) →
  result (process_file sv filename w) = inr tt.
Proof.
  intros H. destruct (endswith filename (py ".eml")) eqn:Hs.
  - rewrite process_file_written by auto.
    by destruct (read_file sv filename).
  - by rewrite process_file_unfold, Hs.
Qed.

Lemma main_loop_cons filename listing w :
  result (process_file sv filename w) = inr tt →
  let r1 := process_file sv filename w in
  let r2 := main_loop sv listing (world r1) in
  main_loop sv (filename :: listing) w
  = Outcome (result r2) (printed r1 ++ printed r2) (world r2).
Proof.
  intros Hr. cbn zeta. cbn [main_loop]. unfold bind.
  destruct (process_file sv filename w) as [r out w']. cbn in *. by subst r.
Qed.

Lemma main_loop_returns listing w :
  (∀ filename, filename ∈ listing → endswith filename (py ".eml") = true →
               loop_lines_written sv filename) →
  result (main_loop sv listing w) = inr tt.
Proof.
  revert w. induction listing as [|filename listing IH]; intros w H; [done|].
  rewrite main_loop_cons.
  - apply IH. intros f Hf. apply H. by right.
  - apply process_file_returns, H. by left.
Qed.

Lemma main_loop_app before after w :
  (∀ filename, filename ∈ before → endswith filename (py ".eml") = true →
               loop_lines_written sv filename) →
  let r1 := main_loop sv before w in
  let r2 := main_loop sv after (world r1) in
  main_loop sv (before ++ after) w
  = Outcome (result r2) (printed r1 ++ printed r2) (world r2).
Proof.
  cbn zeta. revert w. induction before as [|filename before IH]; intros w H.
  - cbn [app]. change (main_loop sv [] w) with (Outcome (inr tt) [] w). cbn.
    by destruct (main_loop sv after w).
  - cbn [app].
    assert (Hf : result (process_file sv filename w) = inr tt).
    { apply process_file_returns, H. by left. }
    rewrite !main_loop_cons by done. cbn zeta.
    rewrite IH by (intros f Hin; apply H; by right). cbn.
    by rewrite app_assoc.
Qed.


(** C6 (amended): an exception of the [try] block of [process_email] is
    printed by its handler and absorbed, whenever the line is written; when
    it is not, the exception of [print] leaves [process_email].  In the
    loop of [main], for a file name whose two lines of the loop are
    written, a file that cannot be read is reported, a file that can is
    handed to [process_email], and an exception that leaves
    [process_email] is reported by the handler of the loop; when this holds
    for the names of the listing, each file is processed and the loop goes
    on with the files after it, whatever happened with the files before
    it. *)
Theorem fault_isolation :
  (∀ email_bytes w,
     process_email sv email_bytes w
     = catch_and_print sv ErrorProcessing
         (process_email_try sv email_bytes w))
  ∧ (∀ email_bytes w,
       (∀ e, result (process_email_try sv email_bytes w) = inl e →
             stdout_error sv (ErrorProcessing e) = None) →
       result (process_email sv email_bytes w) = inr tt)
  ∧ (∀ filename w,
       (endswith filename (py ".eml") = true →
        loop_lines_written sv filename) →
       result (process_file sv filename w) = inr tt)
  ∧ (∀ filename e w,
       endswith filename (py ".eml") = true → read_file sv filename = inl e →
       loop_lines_written sv filename →
       process_file sv filename w
       = Outcome (inr tt) [ErrorReadingOrProcessing filename e] w)
  ∧ (∀ filename email_bytes w,
       endswith filename (py ".eml") = true →
       read_file sv filename = inr email_bytes →
       loop_lines_written sv filename →
       let r := process_email sv email_bytes w in
       process_file sv filename w
       = Outcome (inr tt)
           (ProcessingEmail filename :: printed r
            ++ match result r with
               | inl e => [ErrorReadingOrProcessing filename e]
               | inr _ => []
               end)
           (world r))
  ∧ (∀ before filename after w,
       (∀ f, f ∈ before ++ filename :: after →
             endswith f (py ".eml") = true → loop_lines_written sv f) →
       let r1 := main_loop sv before w in
       let r2 := process_file sv filename (world r1) in
       let r3 := main_loop sv after (world r2) in
       main_loop sv (before ++ filename :: after) w
       = Outcome (inr tt) (printed r1 ++ printed r2 ++ printed r3)
           (world r3)).
Proof.
  split_and!.
  - apply process_email_caught.
  - intros email_bytes w H. rewrite process_email_caught.
    by apply catch_and_print_returns.
  - apply process_file_returns.
  - intros filename e w Hs Hr Hw. by rewrite process_file_written, Hr.
  - intros filename email_bytes w Hs Hr Hw.
    by rewrite process_file_written, Hr.
  - intros before filename after w H. cbn zeta.
    rewrite main_loop_app by (intros f Hf; apply H; set_solver).
    cbn zeta.
    rewrite main_loop_cons
      by (apply process_file_returns, H; set_solver).
    cbn zeta. cbn [result printed world]. f_equal.
    apply main_loop_returns. intros f Hf. apply H. set_solver.
Qed.

End Controller.

(** A message that cannot be parsed is reported and the call returns. *)
Example process_email_parse_error :
  process_email out_of_service [] tt
  = Outcome (inr tt) [ErrorProcessing (ExternalError (py "malformed message"))]
      tt.
Proof. vm_compute. reflexivity. Qed.

(** A multipart message without plain text whose [From] header cannot be
    read is reported with the exception of the header. *)
Example process_email_unreadable_from :
  process_email unreadable_from_source [] tt
  = Outcome (inr tt)
      [ErrorProcessing (IndexError (py "string index out of range"))] tt.
Proof. vm_compute. reflexivity. Qed.

Lemma loop_lines_written_quiet_output {World} (sv : services World) filename :
  (∀ ev, stdout_error sv ev = None) → loop_lines_written sv filename.
Proof. intros H. split; [apply H|]. intros e _. apply H. Qed.

Lemma fault_isolation_witness :
  result (process_email html_only_source [] tt) = inr tt
  ∧ printed (main_loop html_only_source [py "a.eml"; py "notes.txt"; py "b.eml"]
               tt)
    = [ProcessingEmail (py "a.eml")]
      ++ printed (process_email html_only_source [] tt)
      ++ [ProcessingEmail (py "b.eml")]
      ++ printed (process_email html_only_source [] tt).
Proof.
  pose proof (fault_isolation html_only_source)
    as (_ & H2 & _ & _ & H5 & H6).
  split; [apply H2; reflexivity|].
  change [py "a.eml"; py "notes.txt"; py "b.eml"]
    with ([py "a.eml"; py "notes.txt"] ++ py "b.eml" :: []).
  rewrite (H6 [py "a.eml"; py "notes.txt"] (py "b.eml") [] tt)
    by (intros; by apply loop_lines_written_quiet_output).
  cbn zeta.
  rewrite (H5 (py "b.eml") [] _ eq_refl eq_refl)
    by (by apply loop_lines_written_quiet_output).
  vm_compute. reflexivity.
Defined.

(** On a strict UTF-8 output a file name with a lone surrogate stops the
    loop: neither line of the loop can be written, the exception of [print]
    leaves the loop and the file after it is not processed. *)
Lemma main_loop_aborts_on_unprintable_name :
  endswith unprintable_name (py ".eml") = true
  ∧ read_file strict_console unprintable_name = inr []
  ∧ main_loop strict_console [unprintable_name; py "b.eml"] tt
    = Outcome (inl (UnicodeEncodeError (py "surrogates not allowed"))) [] tt
  ∧ result (main_loop strict_console [py "b.eml"] tt) = inr tt
  ∧ head (printed (main_loop strict_console [py "b.eml"] tt))
    = Some (ProcessingEmail (py "b.eml"))
  ∧ ¬ (∀ (sv : services unit) listing,
         result (main_loop sv listing tt) = inr tt).
Proof.
  split_and!; [vm_compute; reflexivity..|].
  intros H. specialize (H strict_console [unprintable_name; py "b.eml"]).
  vm_compute in H. discriminate.
Qed.


(** * More on the content normalizer *)

Lemma length_scan b s : length (scan b s) ≤ length s.
Proof.
  revert b. induction s as [|c s IH]; intros b; [by destruct b|].
  destruct b.
  - rewrite scan_true_cons. destruct (c =? Chr.GT)%N;
      [specialize (IH false)|specialize (IH true)]; cbn; lia.
  - rewrite scan_false_cons. destruct (starts_tag (c :: s));
      [specialize (IH true)|specialize (IH false)]; cbn; lia.
Qed.

Lemma length_normalize_strong s :
  length (normalize s) ≤ length s
  ∧ (∀ c s', s = c :: s' → isspace c = true →
             S (length (normalize s)) ≤ length s).
Proof.
  induction s as [|c s [IH1 IH2]]; [done|]. destruct (isspace c) eqn:Hc.
  - rewrite normalize_cons_space, length_cons by done. split; [lia|].
    intros ?? _ _. lia.
  - split; [|intros ?? [= <- <-]; congruence].
    rewrite normalize_cons_nonspace by done. destruct s as [|c' s]; [done|].
    destruct (isspace c') eqn:Hc'.
    + specialize (IH2 c' s eq_refl Hc').
      destruct (split (c' :: s)); rewrite !length_cons in *; cbn [length]; lia.
    + rewrite !length_cons in *. lia.
Qed.

Lemma length_normalize s : length (normalize s) ≤ length s.
Proof. apply length_normalize_strong. Qed.

(** X4: cleaning never makes the text longer. *)
Theorem clean_email_content_length (s : str) :
  length (clean_email_content s) ≤ length s.
Proof.
  rewrite clean_email_content_normalize.
  pose proof (length_normalize (re_sub_tags s)).
  pose proof (length_scan false s). unfold re_sub_tags in *. lia.
Qed.

Lemma tag_free_no_lt s : Chr.LT ∉ s → tag_free s = true.
Proof.
  induction s as [|c s IH]; [done|]. intros [Hc Hs]%not_elem_of_cons.
  rewrite tag_free_cons, starts_tag_cons, IH by done.
  destruct (N.eqb_spec c Chr.LT); [congruence|done].
Qed.

Lemma tag_free_no_gt s : Chr.GT ∉ s → tag_free s = true.
Proof.
  induction s as [|c s IH]; [done|]. intros [Hc Hs]%not_elem_of_cons.
  rewrite tag_free_cons, starts_tag_cons, IH by done.
  rewrite has_gt_false_opens, andb_false_r; [done|].
  destruct (has_gt s) eqn:Hg; [|done]. by apply has_gt_elem in Hg.
Qed.

(** X5: a text without [<], or without [>], keeps all its characters but
    whitespace: an opening bracket that is never closed removes nothing. *)
Theorem clean_email_content_no_bracket (s : str) :
  Chr.LT ∉ s ∨ Chr.GT ∉ s →
  re_sub_tags s = s ∧ clean_email_content s = join (py " ") (split s).
Proof.
  intros Hs. assert (Hf : tag_free s = true).
  { destruct Hs; [by apply tag_free_no_lt|by apply tag_free_no_gt]. }
  rewrite clean_email_content_normalize, re_sub_tags_tag_free by done. done.
Qed.

Lemma scan_no_lt_prefix a r :
  Chr.LT ∉ a → scan false (a ++ r) = a ++ scan false r.
Proof.
  induction a as [|c a IH]; [done|]. intros [Hc Ha]%not_elem_of_cons.
  cbn [app]. rewrite scan_keep, IH; [done..|].
  rewrite starts_tag_cons. destruct (N.eqb_spec c Chr.LT); [congruence|done].
Qed.

(** X6: a tag is removed without a trace: the text is cleaned as if the tag
    had not been there, so the words on its two sides are joined when no
    whitespace separates them from it. *)
Theorem clean_email_content_tag (a t b : str) :
  is_tag t → Chr.LT ∉ a →
  clean_email_content (a ++ t ++ b) = clean_email_content (a ++ b).
Proof.
  intros Ht Ha. rewrite !clean_email_content_normalize. unfold re_sub_tags.
  by rewrite (scan_no_lt_prefix a (t ++ b)), (scan_no_lt_prefix a b), scan_tag.
Qed.

Lemma split_nil s : split s = [] ↔ Forall (λ c, isspace c = true) s.
Proof.
  induction s as [|c s IH]; [done|]. destruct (isspace c) eqn:Hc.
  - rewrite split_cons_space, IH, Forall_cons by done. tauto.
  - split.
    + intros Hs. by destruct (split_nonspace_nonempty c s Hc).
    + intros [Hc' _]%Forall_cons. congruence.
Qed.

Lemma join_words_nil ws : Forall word ws → join (py " ") ws = [] → ws = [].
Proof.
  destruct 1 as [|w ws [Hne _] _]; [done|]. destruct w; [done|].
  destruct ws; discriminate.
Qed.

(** X7: the cleaned text is empty exactly when nothing but whitespace is left
    once the tags are removed. *)
Theorem clean_email_content_empty (s : str) :
  clean_email_content s = []
  ↔ Forall (λ c, isspace c = true) (re_sub_tags s).
Proof.
  rewrite clean_email_content_normalize, <- split_nil. unfold normalize. split.
  - apply join_words_nil, split_words.
  - by intros ->.
Qed.

Lemma clean_email_content_no_bracket_witness :
  re_sub_tags (py "3 < 4 and x") = py "3 < 4 and x"
  ∧ clean_email_content (py "3 < 4 and x")
    = join (py " ") (split (py "3 < 4 and x")).
Proof.
  apply clean_email_content_no_bracket. right.
  apply (bool_decide_unpack _). vm_compute. reflexivity.
Defined.

Lemma clean_email_content_tag_witness :
  clean_email_content (py "Hello" ++ py "<br>" ++ py "World")
  = clean_email_content (py "Hello" ++ py "World").
Proof.
  apply clean_email_content_tag.
  - exists (py "br"). split_and!; [discriminate| |reflexivity].
    apply (bool_decide_unpack _). vm_compute. reflexivity.
  - apply (bool_decide_unpack _). vm_compute. reflexivity.
Defined.

Lemma clean_email_content_empty_witness :
  clean_email_content (py " <p> </p> ") = [].
Proof.
  apply clean_email_content_empty. vm_compute. repeat constructor.
Defined.

(** * More on the similarity scorer *)
Section SimilarityMore.
Implicit Types extracted expected : entities.

Lemma agrees_filter_comm extracted expected :
  filter (agrees extracted) expected = filter (agrees expected) extracted.
Proof.
  apply map_eq. intros k. apply option_eq. intros v.
  rewrite !map_lookup_filter_Some. unfold agrees. cbn. tauto.
Qed.

Lemma present_filter_size extracted expected :
  size (filter (present extracted) expected)
  = size (dom extracted ∩ dom expected).
Proof.
  rewrite <- size_dom. f_equal. apply dom_filter_L. intros k.
  rewrite elem_of_intersection, !elem_of_dom. unfold present, is_Some. cbn.
  split.
  - intros [[v Hv] [v' Hv']]. eauto.
  - intros (v' & Hv' & v & Hv). eauto.
Qed.

Lemma similarity_counts_comm extracted expected :
  similarity_counts extracted expected = similarity_counts expected extracted.
Proof.
  rewrite !similarity_counts_sizes, agrees_filter_comm, !present_filter_size.
  do 2 f_equal. apply (comm_L (∩)).
Qed.

(** X15: the score is symmetric in its two arguments. *)
Theorem calculate_similarity_score_comm extracted expected :
  calculate_similarity_score extracted expected
  = calculate_similarity_score expected extracted.
Proof.
  unfold calculate_similarity_score. by rewrite similarity_counts_comm.
Qed.

Lemma score_of_counts extracted expected :
  calculate_similarity_score extracted expected
  = let matches := size (filter (agrees extracted) expected) in
    let total := size (filter (present extracted) expected) in
    if decide (total = 0) then 0%Q
    else (Z.of_nat matches # Pos.of_nat total)%Q.
Proof.
  unfold calculate_similarity_score. by rewrite similarity_counts_sizes.
Qed.

Lemma agrees_subseteq_present extracted expected :
  filter (agrees extracted) expected ⊆ filter (present extracted) expected.
Proof.
  apply map_subseteq_spec. intros k v. rewrite !map_lookup_filter_Some.
  unfold agrees, present. cbn. intros [? Heq]. by rewrite Heq.
Qed.

(** X16: the score is 1 exactly when the two mappings share a key and agree on
    every key they share. *)
Theorem calculate_similarity_score_one extracted expected :
  (calculate_similarity_score extracted expected == 1)%Q
  ↔ (∃ k, is_Some (extracted !! k) ∧ is_Some (expected !! k))
    ∧ (∀ k v v', extracted !! k = Some v → expected !! k = Some v' → v = v').
Proof.
  rewrite score_of_counts. cbn zeta.
  pose proof (agrees_subseteq_present extracted expected) as Hsub.
  pose proof (map_subseteq_size _ _ Hsub) as Hle.
  assert (Hcommon : size (filter (present extracted) expected) ≠ 0
                    ↔ ∃ k, is_Some (extracted !! k) ∧ is_Some (expected !! k)).
  { rewrite map_size_ne_0_lookup. split.
    - intros [k [v [Hv Hp]%map_lookup_filter_Some]]. exists k.
      split; [done|eauto].
    - intros [k [He [v Hv]]]. exists k, v. by apply map_lookup_filter_Some. }
  assert (Hall : filter (agrees extracted) expected
                 = filter (present extracted) expected
                 ↔ ∀ k v v', extracted !! k = Some v →
                             expected !! k = Some v' → v = v').
  { split.
    - intros Heq k v v' Hv Hv'.
      assert (Hin : filter (present extracted) expected !! k = Some v').
      { apply map_lookup_filter_Some. split; [done|]. unfold present. cbn.
        rewrite Hv. eauto. }
      rewrite <- Heq in Hin. apply map_lookup_filter_Some in Hin as [_ Ha].
      unfold agrees in Ha. cbn in Ha. congruence.
    - intros Hagree. apply map_eq. intros k. apply option_eq. intros v'.
      rewrite !map_lookup_filter_Some. unfold agrees, present. cbn. split.
      + intros [? Heq]. by rewrite Heq.
      + intros [Hv' [v Hv]]. split; [done|]. rewrite Hv. f_equal. eauto. }
  rewrite <- Hcommon, <- Hall. case_decide as Ht.
  - split; [intros Hq; by vm_compute in Hq|]. intros [? _]. done.
  - split.
    + intros Hq. split; [done|]. apply map_subseteq_size_eq; [done|].
      unfold Qeq in Hq. cbn in Hq. lia.
    + intros [_ ->]. unfold Qeq. cbn. lia.
Qed.

(** X17: the score is 0 exactly when no entry of one mapping is an entry of the
    other. *)
Theorem calculate_similarity_score_zero extracted expected :
  (calculate_similarity_score extracted expected == 0)%Q
  ↔ ∀ k v, extracted !! k = Some v → expected !! k ≠ Some v.
Proof.
  rewrite score_of_counts. cbn zeta.
  pose proof (agrees_subseteq_present extracted expected) as Hsub.
  pose proof (map_subseteq_size _ _ Hsub) as Hle.
  assert (Hnone : size (filter (agrees extracted) expected) = 0
                  ↔ ∀ k v, extracted !! k = Some v → expected !! k ≠ Some v).
  { rewrite map_size_empty_iff, map_empty. split.
    - intros Hf k v Hv Hv'. specialize (Hf k).
      apply map_lookup_filter_None in Hf as [Hf|Hf]; [congruence|].
      by apply (Hf v).
    - intros Hno k. apply map_lookup_filter_None. right. intros v Hv' Ha.
      by apply (Hno k v). }
  rewrite <- Hnone. case_decide as Ht.
  - split; [lia|done].
  - unfold Qeq. cbn. lia.
Qed.

(** X18: only the keys that the two mappings share count. *)
Theorem calculate_similarity_score_common_keys extracted expected :
  calculate_similarity_score extracted expected
  = calculate_similarity_score (restrict_to expected extracted)
                               (restrict_to extracted expected).
Proof.
  rewrite !score_of_counts. cbn zeta.
  assert (Hl : ∀ (other d : entities) k v,
                 restrict_to other d !! k = Some v
                 ↔ d !! k = Some v ∧ is_Some (other !! k)).
  { intros other d k v. unfold restrict_to.
    by rewrite map_lookup_filter_Some. }
  assert (Ha : filter (agrees (restrict_to expected extracted))
                 (restrict_to extracted expected)
               = filter (agrees extracted) expected).
  { apply map_eq. intros k. apply option_eq. intros v.
    rewrite !map_lookup_filter_Some. unfold agrees. cbn. rewrite !Hl.
    split.
    - intros [[Hv _] [Heq _]]. done.
    - intros [Hv Heq]. split_and!; eauto. }
  assert (Hp : filter (present (restrict_to expected extracted))
                 (restrict_to extracted expected)
               = filter (present extracted) expected).
  { apply map_eq. intros k. apply option_eq. intros v.
    rewrite !map_lookup_filter_Some. unfold present. cbn. rewrite Hl. split.
    - intros [[Hv ?] _]. done.
    - intros [Hv [v' Hv']]. split_and!; eauto.
      exists v'. apply Hl. eauto. }
  by rewrite Ha, Hp.
Qed.
End SimilarityMore.

Lemma calculate_similarity_score_one_witness :
  (calculate_similarity_score
     {[ py "Amount" := py "1000" ]}
     {[ py "Amount" := py "1000"; py "Date" := py "N/A" ]} == 1)%Q.
Proof.
  apply calculate_similarity_score_one. split.
  - exists (py "Amount"). split; eexists; reflexivity.
  - intros k v v' Hv Hv'.
    apply lookup_singleton_Some in Hv as [<- <-].
    vm_compute in Hv'. injection Hv' as <-. reflexivity.
Defined.

Lemma calculate_similarity_score_zero_witness :
  (calculate_similarity_score
     {[ py "Amount" := py "1000" ]} {[ py "Amount" := py "999" ]} == 0)%Q.
Proof.
  apply calculate_similarity_score_zero.
  intros k v Hv. apply lookup_singleton_Some in Hv as [<- <-].
  vm_compute. discriminate.
Defined.

(** * More on the routing engine *)
Section RoutingMore.
Context {World : Type} (sv : services World).
Implicit Types (w : World) (md : metadata) (category sentiment : str).

(** X11: the default department is reached exactly by the categories outside
    the vocabulary. *)
Theorem route_email_default_destination
    category ents intent sentiment summary md w destination acts :
  result (route_email sv category ents intent sentiment summary md w)
  = inr (destination, acts) →
  destination = py "General Inquiry Department"
  ↔ category ∉ EMAIL_CATEGORIES.
Proof.
  intros (sender & Heq & _)%route_email_result_inv. revert Heq.
  unfold Table.decision, Table.rows, Table.find_row, EMAIL_CATEGORIES.
  repeat case_decide; subst; intros [= -> _];
    (split; [try discriminate | intros Hn]).
  all: try (exfalso; apply Hn; apply (bool_decide_unpack _);
            vm_compute; reflexivity).
  - intros _. rewrite !elem_of_cons, elem_of_nil. intuition congruence.
  - reflexivity.
Qed.

(** X12: the escalation flag is set exactly for a complaint with a negative
    sentiment; the sentiment is compared as it is. *)
Theorem route_email_escalate
    category ents intent sentiment summary md w destination acts :
  result (route_email sv category ents intent sentiment summary md w)
  = inr (destination, acts) →
  acts !! py "escalate"
  = if decide (category = py "Complaint" ∧ sentiment = py "Negative")
    then Some (ABool true) else None.
Proof.
  intros (sender & Heq & _)%route_email_result_inv. revert Heq.
  unfold Table.decision, Table.rows, Table.find_row.
  repeat case_decide; subst; intros [= _ ->]; try done;
    try (vm_compute; reflexivity).
  all: try (exfalso; intuition congruence).
  all: match goal with
       | H : _ = _ ∧ _ |- _ =>
           destruct H as [H _]; vm_compute in H; discriminate
       end.
Qed.

(** X13: outside the complaints the sentiment is inert: two calls that
    differ in the sentiment only return the same pair whenever both
    return. *)
Theorem route_email_sentiment_inert
    category ents intent sentiment1 sentiment2 summary md w r1 r2 :
  category ≠ py "Complaint" →
  result (route_email sv category ents intent sentiment1 summary md w)
  = inr r1 →
  result (route_email sv category ents intent sentiment2 summary md w)
  = inr r2 →
  r1 = r2.
Proof.
  intros Hc. destruct (md !! py "sender_email") as [sender|] eqn:Hs.
  - rewrite !(route_email_with_sender _ _ _ _ _ _ _ sender) by done.
    cbn zeta. unfold logged.
    do 2 (destruct (stdout_error sv _); [done|]). cbn. intros [= <-] [= <-].
    unfold Table.decision, Table.rows, Table.find_row.
    repeat case_decide; subst; done.
  - rewrite !route_email_no_sender by done. case_decide; [done|].
    cbn zeta. unfold logged.
    do 2 (destruct (stdout_error sv _); [done|]). cbn. intros [= <-] [= <-].
    unfold Table.decision, Table.rows, Table.find_row.
    repeat case_decide; subst; done.
Qed.

(** X14: the actions are among [create_ticket], [send_acknowledgment] and
    [escalate], and an acknowledgment is addressed to the sender of the
    metadata and to nobody else. *)
Theorem route_email_actions
    category ents intent sentiment summary md w destination acts :
  result (route_email sv category ents intent sentiment summary md w)
  = inr (destination, acts) →
  dom acts ⊆ {[ py "create_ticket"; py "send_acknowledgment"; py "escalate" ]}
  ∧ ∀ a, acts !! py "send_acknowledgment" = Some a →
         ∃ r, a = AParams r ∧ r !! py "to" = md !! py "sender_email".
Proof.
  intros (sender & Heq & Hs)%route_email_result_inv. revert Heq.
  unfold Table.decision, Table.rows, Table.find_row.
  repeat case_decide; subst; intros [= _ ->]; (split; [|intros a]).
  all: try (apply (bool_decide_unpack _); vm_compute; reflexivity).
  all: try (vm_compute; discriminate).
  all: destruct Hs as [->|[??]]; [|done].
  all: intros [= <-]; eexists; split; [reflexivity|].
  all: rewrite lookup_insert_ne by (vm_compute; discriminate).
  all: apply lookup_singleton_eq.
Qed.
End RoutingMore.

Lemma route_email_default_destination_witness :
  py "General Inquiry Department" = py "General Inquiry Department"
  ↔ py "Fraud Report." ∉ EMAIL_CATEGORIES.
Proof.
  apply (route_email_default_destination out_of_service (py "Fraud Report.") ∅
           [] [] [] ∅ tt (py "General Inquiry Department") ∅).
  reflexivity.
Defined.

Lemma route_email_escalate_witness :
  ({[ py "create_ticket" := Table.ticket "CRM" "High";
      py "escalate" := ABool true ]} : actions) !! py "escalate"
  = if decide (py "Complaint" = py "Complaint"
               ∧ py "Negative" = py "Negative")
    then Some (ABool true) else None.
Proof.
  apply (route_email_escalate out_of_service (py "Complaint") ∅ []
           (py "Negative") [] ∅ tt (py "Customer Relations Department")).
  reflexivity.
Defined.

Lemma route_email_sentiment_inert_witness :
  (py "Product Development Department", (∅ : actions))
  = (py "Product Development Department", ∅).
Proof.
  apply (route_email_sentiment_inert out_of_service (py "Feedback") ∅ []
           (py "Negative") (py "Positive") [] ∅ tt);
    [discriminate|reflexivity..].
Defined.

Lemma route_email_actions_witness :
  dom ({[ py "send_acknowledgment" :=
            Table.acknowledgment "AccountInquiryReceived"
              (MStr (py "a@b.com")) ]} : actions)
  ⊆ {[ py "create_ticket"; py "send_acknowledgment"; py "escalate" ]}
  ∧ ∀ a,
      ({[ py "send_acknowledgment" :=
            Table.acknowledgment "AccountInquiryReceived"
              (MStr (py "a@b.com")) ]} : actions)
      !! py "send_acknowledgment" = Some a →
      ∃ r, a = AParams r
           ∧ r !! py "to"
             = ({[ py "sender_email" := MStr (py "a@b.com") ]} : metadata)
               !! py "sender_email".
Proof.
  apply (route_email_actions out_of_service (py "Account Inquiry") ∅ [] [] []
           {[ py "sender_email" := MStr (py "a@b.com") ]} tt
           (py "Customer Service Department")).
  reflexivity.
Defined.

(** * More on the pipeline controller *)
Section ControllerMore.
Context {World : Type} (sv : services World).
Implicit Types (w : World) (email_bytes : bytes) (filename : str).

Lemma print_written ev w :
  stdout_error sv ev = None → print sv ev w = Outcome (inr tt) [ev] w.
Proof. intros H. unfold print. by rewrite H. Qed.

Lemma route_email_written
    category ents intent sentiment summary md sender w :
  md !! py "sender_email" = Some sender →
  stdout_error sv
    (RoutedTo (Table.decision category sender sentiment).1
       (Table.decision category sender sentiment).2 category intent sentiment)
  = None →
  route_email sv category ents intent sentiment summary md w
  = Outcome (inr (Table.decision category sender sentiment))
      [RoutedTo (Table.decision category sender sentiment).1
         (Table.decision category sender sentiment).2 category intent
         sentiment] w.
Proof.
  intros Hs Hl. rewrite (route_email_with_sender _ _ _ _ _ _ _ sender) by done.
  cbn zeta. unfold logged. by rewrite Hl.
Qed.

Lemma analyze_email_requested content w :
  (∀ ev, ev ∈ printed (requested sv content w) → stdout_error sv ev = None) →
  analyze_email sv content w = requested sv content w.
Proof. apply analyze_email_accepted. Qed.

Lemma analyze_and_route_lines md content w sender a :
  md !! py "sender_email" = Some sender →
  let ra := requested sv (clean_email_content content) w in
  result ra = inr a →
  (∀ ev, ev ∈ printed ra ++ report_lines a sender →
         stdout_error sv ev = None) →
  analyze_and_route sv md content w
  = Outcome (inr tt) (printed ra ++ report_lines a sender) (world ra).
Proof.
  intros Hs ra Ha Hw. unfold analyze_and_route. cbn zeta.
  assert (Hra : analyze_email sv (clean_email_content content) w = ra).
  { apply analyze_email_requested. intros ev Hev. apply Hw.
    apply elem_of_app. by left. }
  assert (Hrep : ∀ ev, ev ∈ report_lines a sender → stdout_error sv ev = None).
  { intros ev Hev. apply Hw. apply elem_of_app. by right. }
  clear Hw. clearbody ra.
  destruct ra as [rr out w']. cbn [result printed world] in *. subst rr.
  rewrite (bind_ok _ _ _ _ _ _ Hra).
  unfold report_lines in *. cbn zeta in Hrep.
  apply Forall_forall in Hrep.
  repeat match type of Hrep with
         | Forall _ (_ :: _) => apply Forall_cons in Hrep as [? Hrep]
         end.
  do 5 (rewrite bind_print_written by done; cbn [result printed world]).
  match goal with
  | H : stdout_error sv (RoutedTo _ _ _ _ _) = None |- _ =>
      rewrite (bind_ok _ _ _ _ _ _
                 (route_email_written _ (a_entities a) _ _ (a_summary a) _ _
                    w' Hs H))
  end.
  cbn [result printed world fst snd].
  do 2 (rewrite bind_print_written by done; cbn [result printed world]).
  rewrite print_written by done. reflexivity.
Qed.

(** The [try] block of [process_email] on a message that was parsed, up to
    the decoding of the body. *)
Lemma process_email_try_parsed email_bytes email_message w md :
  parsebytes sv email_bytes = inr email_message →
  result (extract_email_metadata sv email_bytes w) = inr md →
  stdout_error sv (EmailMetadata md) = None →
  process_email_try sv email_bytes w
  = let r := bind (decode_body sv (select_body email_message))
               (analyze_and_route sv md) w in
    Outcome (result r) (EmailMetadata md :: printed r) (world r).
Proof.
  intros Hp Hmd%extract_email_metadata_outcome Hl. unfold process_email_try.
  rewrite (bind_ok _ _ _ _ _ _ Hmd), bind_print_written, Hp by done.
  cbn [result printed world app].
  by rewrite (bind_silent _ _ w email_message).
Qed.

Lemma process_email_analysed email_bytes email_message body md sender w a :
  parsebytes sv email_bytes = inr email_message →
  select_body email_message = Some (Some body) →
  result (extract_email_metadata sv email_bytes w) = inr md →
  md !! py "sender_email" = Some sender →
  let ra := requested sv
              (clean_email_content (decode_utf8_ignore sv body)) w in
  result ra = inr a →
  let lines := EmailMetadata md :: printed ra ++ report_lines a sender in
  (∀ ev, ev ∈ lines → stdout_error sv ev = None) →
  process_email sv email_bytes w = Outcome (inr tt) lines (world ra).
Proof.
  intros Hp Hsel Hmd Hs ra Ha lines Hw.
  rewrite process_email_caught.
  rewrite (process_email_try_parsed _ _ _ _ Hp Hmd)
    by (apply Hw; by left).
  rewrite Hsel. cbn zeta. cbn [decode_body].
  rewrite (bind_silent _ _ w (decode_utf8_ignore sv body)) by done.
  rewrite (analyze_and_route_lines _ _ _ _ _ Hs Ha)
    by (intros ev Hev; apply Hw; by right).
  reflexivity.
Qed.

(** X19: a message that is parsed, whose metadata are extracted and that
    has a body is analysed, routed by the table to its [From] header (or to
    ["None"] when the header is missing) and scored, when every line of the
    report is written; the lines are printed in the order of the script and
    no error of the message is reported: within the pipeline the routing
    finds its sender address. *)
Theorem process_email_success email_bytes email_message body md w a :
  parsebytes sv email_bytes = inr email_message →
  select_body email_message = Some (Some body) →
  result (extract_email_metadata sv email_bytes w) = inr md →
  let ra := requested sv
              (clean_email_content (decode_utf8_ignore sv body)) w in
  result ra = inr a →
  ∃ sender,
    msg_get email_message (py "From") = inr sender
    ∧ md !! py "sender_email" = Some (MStr (str_of sender))
    ∧ let lines :=
        EmailMetadata md
        :: printed ra ++ report_lines a (MStr (str_of sender)) in
      ((∀ ev, ev ∈ lines → stdout_error sv ev = None) →
       process_email sv email_bytes w = Outcome (inr tt) lines (world ra)).
Proof.
  intros Hp Hsel Hmd ra Ha.
  destruct (extract_email_metadata_sender _ _ _ _ Hmd)
    as (m & sender & Hp' & Hfrom & Hs).
  rewrite Hp in Hp'. injection Hp' as <-.
  exists sender. split_and!; [done..|]. cbn zeta. intros Hw.
  by apply (process_email_analysed _ email_message body).
Qed.

(** X20: a message that cannot be parsed is reported with the exception of
    the parser, with no other line and no request to the service; when the
    line is not written, the exception of [print] leaves [process_email]. *)
Theorem process_email_parse_failure email_bytes e w :
  parsebytes sv email_bytes = inl e →
  process_email sv email_bytes w
  = match stdout_error sv (ErrorProcessing e) with
    | None => Outcome (inr tt) [ErrorProcessing e] w
    | Some e' => Outcome (inl e') [] w
    end.
Proof.
  intros Hp. rewrite process_email_caught. unfold process_email_try.
  rewrite (bind_err _ _ w e [] w).
  - unfold catch_and_print. cbn. by destruct (stdout_error sv _).
  - unfold extract_email_metadata. by rewrite Hp.
Qed.

(** X21: in a multipart message the body is the payload of the first part, in
    depth-first order, whose content type is [text/plain]; later such parts
    are not looked at. *)
Theorem select_body_first_plain email_message before part after :
  is_multipart email_message = true →
  walk email_message = before ++ part :: after →
  (∀ p, p ∈ before → get_content_type p ≠ py "text/plain") →
  get_content_type part = py "text/plain" →
  select_body email_message = Some (get_payload_decode part).
Proof.
  intros Hm Hw Hb Hp. unfold select_body. rewrite Hm, Hw. clear Hw.
  induction before as [|p before IH]; cbn [app find].
  - by rewrite bool_decide_eq_true_2.
  - rewrite bool_decide_eq_false_2 by (apply Hb; by left).
    apply IH. intros p' Hp'. apply Hb. by right.
Qed.

Lemma error_line_not_processing line r e :
  (∀ e', line e' ≠ ErrorProcessing e) →
  ErrorProcessing e ∉ error_line line r.
Proof.
  intros Hl. destruct r as [e'|]; cbn; [|apply not_elem_of_nil].
  intros Heq%list_elem_of_singleton. by apply (Hl e').
Qed.

(** X22: a message that is not multipart has a body whatever its content
    type: the selection and the decoding of the body do not fail.  When its
    metadata are extracted and every line of the report is written, it is
    analysed and no error of the message is reported. *)
Theorem process_email_single_part email_bytes email_message w :
  parsebytes sv email_bytes = inr email_message →
  is_multipart email_message = false →
  select_body email_message = Some (get_payload_decode email_message)
  ∧ ∃ body,
      get_payload_decode email_message = Some body
      ∧ decode_body sv (select_body email_message) w
        = Outcome (inr (decode_utf8_ignore sv body)) [] w
      ∧ ∀ md sender a,
          result (extract_email_metadata sv email_bytes w) = inr md →
          md !! py "sender_email" = Some sender →
          let ra := requested sv
                      (clean_email_content (decode_utf8_ignore sv body)) w in
          result ra = inr a →
          let lines := EmailMetadata md :: printed ra ++ report_lines a sender in
          (∀ ev, ev ∈ lines → stdout_error sv ev = None) →
          process_email sv email_bytes w = Outcome (inr tt) lines (world ra)
          ∧ ∀ e, ErrorProcessing e ∉ lines.
Proof.
  intros Hp Hm.
  assert (Hsel : select_body email_message
                 = Some (get_payload_decode email_message)).
  { unfold select_body. by rewrite Hm. }
  split; [done|].
  assert (Hb : is_Some (get_payload_decode email_message)).
  { destruct email_message as [g t f [b|ps]]; [by eexists|done]. }
  destruct Hb as [body Hb]. exists body. rewrite Hsel, Hb.
  split_and!; [done..|]. intros md sender a Hmd Hs ra Ha lines Hw.
  rewrite Hb in Hsel. split.
  - by apply (process_email_analysed _ email_message body).
  - intros e. unfold lines, ra, requested. cbn zeta. cbn [printed].
    unfold report_lines.
    rewrite not_elem_of_cons, !not_elem_of_app. split; [done|].
    split_and!; try (by apply error_line_not_processing).
    rewrite !not_elem_of_cons. split_and!; try done. apply not_elem_of_nil.
Qed.
End ControllerMore.

(** * The lines of the loop of [main] *)
Section LoopLines.
Context {World : Type} (sv : services World).
Implicit Types (w : World) (email_bytes : bytes) (filename : str).

Local Abbreviation quiet := (@quiet World _).

Lemma quiet_ret {A} (a : A) : quiet (ret a).
Proof. intros w. constructor. Qed.

Lemma quiet_raise {A} (e : exn) : quiet (raise (A:=A) e).
Proof. intros w. constructor. Qed.

Lemma quiet_print ev : is_loop_line ev = false → quiet (print sv ev).
Proof.
  intros H w. unfold print. destruct (stdout_error sv ev); by repeat constructor.
Qed.

Lemma quiet_bind {A B} (m : M A) (k : A → M B) :
  quiet m → (∀ a, quiet (k a)) → quiet (bind m k).
Proof.
  intros Hm Hk w. unfold bind. specialize (Hm w).
  destruct (m w) as [[e|a] out w']; [done|]. cbn in *.
  apply Forall_app. split; [done|apply Hk].
Qed.

Lemma quiet_try_except {A} (m : M A) (handler : exn → M A) :
  quiet m → (∀ e, quiet (handler e)) → quiet (try_except m handler).
Proof.
  intros Hm Hh w. unfold try_except. specialize (Hm w).
  destruct (m w) as [[e|a] out w']; [|done]. cbn in *.
  apply Forall_app. split; [done|apply Hh].
Qed.

Lemma quiet_call_predict prompt : quiet (call_predict sv prompt).
Proof.
  intros w. unfold call_predict. destruct (predict sv prompt w). constructor.
Qed.

Lemma quiet_entities_loop d lines : quiet (entities_loop d lines).
Proof.
  intros w. rewrite entities_loop_foldl. constructor.
Qed.

Lemma quiet_route_email category ents intent sentiment summary md :
  quiet (route_email sv category ents intent sentiment summary md).
Proof.
  intros w. destruct (md !! py "sender_email") as [sender|] eqn:Hs.
  - rewrite (route_email_with_sender _ _ _ _ _ _ _ sender) by done.
    cbn zeta. unfold logged. destruct (stdout_error sv _); by repeat constructor.
  - rewrite route_email_no_sender by done.
    case_decide; [constructor|].
    cbn zeta. unfold logged. destruct (stdout_error sv _); by repeat constructor.
Qed.

Lemma quiet_extract_email_metadata email_bytes :
  quiet (extract_email_metadata sv email_bytes).
Proof.
  intros w. destruct (extract_email_metadata_silent sv email_bytes w) as [-> _].
  constructor.
Qed.

Ltac quiet_steps :=
  repeat first
    [ apply quiet_ret | apply quiet_raise | apply quiet_call_predict
    | apply quiet_entities_loop | apply quiet_route_email
    | apply quiet_extract_email_metadata
    | apply quiet_print; reflexivity
    | apply quiet_bind | apply quiet_try_except
    | match goal with |- ∀ _, _ => intro end ].

Lemma quiet_analyze_and_route md content :
  quiet (analyze_and_route sv md content).
Proof.
  unfold analyze_and_route, analyze_email, classify_email, extract_entities,
    recognize_intent, analyze_sentiment, summarize_email.
  quiet_steps.
Qed.

Lemma quiet_decode_body email_content : quiet (decode_body sv email_content).
Proof. destruct email_content as [[?|]|]; cbn; quiet_steps. Qed.

Lemma quiet_process_email email_bytes : quiet (process_email sv email_bytes).
Proof.
  unfold process_email, process_email_try.
  destruct (parsebytes sv email_bytes); quiet_steps;
    first [apply quiet_decode_body | apply quiet_analyze_and_route].
Qed.

Lemma filter_quiet (l : list event) :
  Forall (λ ev, is_loop_line ev = false) l → List.filter is_loop_line l = [].
Proof.
  induction 1 as [|ev l Hev _ IH]; [done|]. cbn. by rewrite Hev.
Qed.

Lemma process_file_loop_line filename w :
  (∀ email_bytes w', result (process_email sv email_bytes w') = inr tt) →
  (∀ ev, ev ∈ loop_line sv filename → stdout_error sv ev = None) →
  result (process_file sv filename w) = inr tt
  ∧ List.filter is_loop_line (printed (process_file sv filename w))
    = loop_line sv filename.
Proof.
  intros Hpe. rewrite process_file_unfold. unfold loop_line.
  destruct (endswith filename (py ".eml")); [|done].
  unfold catch_and_print.
  destruct (read_file sv filename) as [e|email_bytes]; intros Hw.
  - cbn. rewrite Hw by (by left). done.
  - rewrite Hw by (by left). cbn zeta. cbn [result printed world].
    rewrite Hpe. split; [done|].
    cbn. by rewrite filter_quiet by apply quiet_process_email.
Qed.

(** X23: when [process_email] returns and the line of the loop for each file
    is written, the loop of [main] returns and prints exactly one line of
    its own for each file of the listing whose name ends with [.eml], in
    the order of the listing: [Processing email] when the file could be
    read and the read error otherwise. *)
Theorem main_loop_lines listing w :
  (∀ email_bytes w', result (process_email sv email_bytes w') = inr tt) →
  (∀ ev, ev ∈ flat_map (loop_line sv) listing → stdout_error sv ev = None) →
  result (main_loop sv listing w) = inr tt
  ∧ List.filter is_loop_line (printed (main_loop sv listing w))
    = flat_map (loop_line sv) listing.
Proof.
  intros Hpe. revert w.
  induction listing as [|filename listing IH]; intros w Hw; [done|].
  cbn [flat_map] in Hw.
  destruct (process_file_loop_line filename w Hpe) as [Hr Hl].
  { intros ev Hev. apply Hw, elem_of_app. by left. }
  destruct (IH (world (process_file sv filename w))) as [Hr' Hl'].
  { intros ev Hev. apply Hw, elem_of_app. by right. }
  rewrite main_loop_cons by done. cbn zeta. cbn [result printed flat_map].
  split; [done|]. by rewrite List.filter_app, Hl, Hl'.
Qed.

(** X24: the files whose name does not end with [.eml] are skipped altogether:
    the run is the run on the listing without them. *)
Theorem main_loop_skips_other_files listing w :
  main_loop sv listing w
  = main_loop sv (List.filter (λ filename, endswith filename (py ".eml"))
                    listing) w.
Proof.
  revert w. induction listing as [|filename listing IH]; intros w; [done|].
  cbn [List.filter]. destruct (endswith filename (py ".eml")) eqn:Hs.
  - cbn [main_loop]. unfold bind.
    destruct (process_file sv filename w) as [[e|[]] out w']; [done|].
    by rewrite IH.
  - cbn [main_loop]. rewrite (bind_silent _ _ w tt); [apply IH|].
    by rewrite process_file_unfold, Hs.
Qed.
End LoopLines.

Lemma process_email_success_witness :
  ∃ sender,
    msg_get plain_message (py "From") = inr sender
    ∧ str_of sender = py "a@b.com"
    ∧ result (process_email plain_source [] tt) = inr tt.
Proof.
  destruct (process_email_success plain_source [] plain_message []
              ({[ py "attachments" := MList [];
                  py "timestamp" := MStr (py "None");
                  py "subject" := MStr (py "None");
                  py "sender_email" := MStr (py "a@b.com") ]} : metadata)
              tt _ eq_refl eq_refl eq_refl eq_refl)
    as (sender & Hfrom & Hs & H).
  exists sender. split_and!; [exact Hfrom| |].
  - injection Hfrom as <-. reflexivity.
  - cbn zeta in H. by rewrite H.
Defined.

Lemma process_email_parse_failure_witness :
  process_email out_of_service [] tt
  = Outcome (inr tt) [ErrorProcessing (ExternalError (py "malformed message"))]
      tt.
Proof.
  apply (process_email_parse_failure out_of_service []
           (ExternalError (py "malformed message")) tt).
  reflexivity.
Defined.

Lemma select_body_first_plain_witness :
  select_body two_plain = Some (Some [Byte.x31]).
Proof.
  apply (select_body_first_plain two_plain
           [two_plain;
            Message (λ _, inr None) (py "text/html") (inr None) (inl [])]
           (Message (λ _, inr None) (py "text/plain") (inr None)
              (inl [Byte.x31]))
           [Message (λ _, inr None) (py "text/plain") (inr None)
              (inl [Byte.x32])]).
  - reflexivity.
  - reflexivity.
  - apply Forall_forall. repeat (constructor; [discriminate|]). constructor.
  - reflexivity.
Defined.

Lemma process_email_single_part_witness :
  select_body plain_message = Some (get_payload_decode plain_message)
  ∧ ∃ body, get_payload_decode plain_message = Some body
            ∧ decode_body plain_source (select_body plain_message) tt
              = Outcome (inr (decode_utf8_ignore plain_source body)) [] tt.
Proof.
  destruct (process_email_single_part plain_source [] plain_message tt
              eq_refl eq_refl) as (Hsel & body & Hb & Hd & _).
  split; [exact Hsel|]. exists body. split; [exact Hb|exact Hd].
Defined.

Lemma main_loop_lines_witness :
  result (main_loop strict_console [py "a.eml"; py "notes.txt"] tt) = inr tt
  ∧ List.filter is_loop_line
      (printed (main_loop strict_console [py "a.eml"; py "notes.txt"] tt))
    = [ProcessingEmail (py "a.eml")].
Proof.
  apply (main_loop_lines strict_console [py "a.eml"; py "notes.txt"] tt).
  - intros email_bytes []. vm_compute. reflexivity.
  - intros ev ->%list_elem_of_singleton. reflexivity.
Defined.
